(** * Recipe tools: ingredient matching and similar-recipe lookup

    A shallow embedding of [recipeTools.ts]: the string and array
    primitives of JavaScript the functions rely on, the Prisma queries
    they issue, then [getSimilarRecipes] (with [extractKeyIngredients]),
    [findRecipesByAvailableIngredients], the search functions and the tool
    handlers, and [parseCSVLine] of [fetchCsvStructure.ts].

    Conventions.
    - A JavaScript string is a [string]: the bytes of its UTF-8 encoding
      (a string with an unpaired surrogate has none and is left out).
      Its [length] counts UTF-16 code units, white space is the class [\s]
      of JavaScript, and [toLowerCase], which needs the case tables of
      Unicode, is a parameter of the development ([Runtime]).
    - Array lengths and [limit] are integers ([Z]). The score carries the
      exact rational value of the percentage ([Q]), on which the threshold
      and the order are stated; the double the code computes for it is
      [matchPercentageDouble], in the binary64 arithmetic of [SpecFloat].
    - An [async] function is a function of the Prisma client that returns
      the queries it issued and either the value it resolves to or the
      error it rejects with.
    - The table has the columns of [schema.prisma]; on SQLite the filter
      [contains] is the operator LIKE. *)

From Stdlib Require Import String Ascii List Bool ZArith QArith Lia Sorted.
From Stdlib Require Import DecimalString.
From Stdlib Require Import Permutation Qround.
From Stdlib Require Import SpecFloat.
From Stdlib Require OrderedTypeEx.
Import ListNotations.

Set Warnings "-register-all".

Local Open Scope string_scope.
Local Open Scope Z_scope.

(** ** JavaScript primitives *)

Module JS.

(** The ASCII characters matched by [\s]: tab, line feed, vertical tab,
    form feed, carriage return and space. *)
Definition isSpace (c : ascii) : bool :=
  let n := nat_of_ascii c in
  ((9 <=? n) && (n <=? 13))%nat || (n =? 32)%nat.

(** The character class [[,;]]. *)
Definition isCommaOrSemicolon (c : ascii) : bool :=
  (nat_of_ascii c =? 44)%nat || (nat_of_ascii c =? 59)%nat.

(** A byte that continues a character ([10xxxxxx]); every other byte
    starts one. *)
Definition continuation (c : ascii) : bool :=
  let n := nat_of_ascii c in
  ((128 <=? n) && (n <? 192))%nat.

(** The UTF-16 code units of the character a byte starts: one, or two
    for a character outside the basic plane (first byte [11110xxx]); a
    continuation byte starts none. *)
Definition units (c : ascii) : Z :=
  let n := nat_of_ascii c in
  if (n <? 128)%nat then 1
  else if (n <? 192)%nat then 0
  else if (n <? 240)%nat then 1
  else 2.

(** [s.length] *)
Fixpoint length (s : string) : Z :=
  match s with
  | EmptyString => 0
  | String c s' => units c + length s'
  end.

(** Every character of [s] is an ASCII character. *)
Fixpoint isAscii (s : string) : bool :=
  match s with
  | EmptyString => true
  | String c s' => (nat_of_ascii c <? 128)%nat && isAscii s'
  end.

Definition lowerChar (c : ascii) : ascii :=
  let n := nat_of_ascii c in
  if ((65 <=? n) && (n <=? 90))%nat then ascii_of_nat (n + 32) else c.

(** Lower-casing of the letters A to Z, every other byte kept: what
    [s.toLowerCase()] is on an ASCII text. *)
Fixpoint asciiLowerCase (s : string) : string :=
  match s with
  | EmptyString => EmptyString
  | String c s' => String (lowerChar c) (asciiLowerCase s')
  end.

(** [s.includes(sub)]: [sub] occurs in [s] at some position. *)
Fixpoint includes (s sub : string) : bool :=
  String.prefix sub s ||
  match s with
  | EmptyString => false
  | String _ s' => includes s' sub
  end.

(** Puts a character in front of the piece being read. *)
Definition consHead (c : ascii) (pieces : list string) : list string :=
  match pieces with
  | [] => [String c EmptyString]
  | t :: ts => String c t :: ts
  end.

(** [s.split(/[sep]/)] for a one-character class [sep]: every
    separator ends a piece, so the result has one piece more than the
    text has separators, and the empty text gives one empty piece. *)
Fixpoint splitOn (sep : ascii -> bool) (s : string) : list string :=
  match s with
  | EmptyString => [EmptyString]
  | String c s' =>
      if sep c then EmptyString :: splitOn sep s'
      else consHead c (splitOn sep s')
  end.

(** The white-space characters beyond ASCII, by the three bytes of their
    encoding: U+1680, U+2000 to U+200A, U+2028, U+2029, U+202F, U+205F,
    U+3000 and U+FEFF. *)
Definition threeByteSpace (x y z : nat) : bool :=
  ((x =? 225) && (y =? 154) && (z =? 128)
   || (x =? 226) && (y =? 128)
      && ((128 <=? z) && (z <=? 138) || (z =? 168) || (z =? 169) || (z =? 175))
   || (x =? 226) && (y =? 129) && (z =? 159)
   || (x =? 227) && (y =? 128) && (z =? 128)
   || (x =? 239) && (y =? 187) && (z =? 191))%nat.

(** The number of bytes of the white-space character ([\s], which is
    also what [trim] removes) the text starts with, 0 when it starts
    with none: an ASCII one, U+00A0 on two bytes, or one of the
    three-byte ones. *)
Definition spaceLength (s : string) : nat :=
  match s with
  | EmptyString => 0
  | String a rest =>
      if isSpace a then 1
      else
        match rest with
        | EmptyString => 0
        | String b rest' =>
            if ((nat_of_ascii a =? 194) && (nat_of_ascii b =? 160))%nat then 2
            else
              match rest' with
              | EmptyString => 0
              | String c _ =>
                  if threeByteSpace (nat_of_ascii a) (nat_of_ascii b) (nat_of_ascii c)
                  then 3 else 0
              end
        end
  end.

(** [s.split(/\s+/)]: a maximal run of white space ends a piece.
    [skip] counts the bytes still to pass of the white-space character
    being read, [inRun] tells that the previous character belonged to a
    run. *)
Fixpoint splitRuns (skip : nat) (inRun : bool) (s : string) : list string :=
  match s with
  | EmptyString => [EmptyString]
  | String c s' =>
      match skip with
      | S k => splitRuns k inRun s'
      | O =>
          match spaceLength s with
          | S k =>
              if inRun then splitRuns k true s'
              else EmptyString :: splitRuns k true s'
          | O => consHead c (splitRuns 0 false s')
          end
      end
  end.

Definition splitSpaces (s : string) : list string := splitRuns 0 false s.

(** The text without the white space it starts with; [skip] as above. *)
Fixpoint trimStartFrom (skip : nat) (s : string) : string :=
  match s with
  | EmptyString => EmptyString
  | String _ s' =>
      match skip with
      | S k => trimStartFrom k s'
      | O =>
          match spaceLength s with
          | S k => trimStartFrom k s'
          | O => s
          end
      end
  end.

Definition trimStart (s : string) : string := trimStartFrom 0 s.

(** The text is white space from its first to its last byte. *)
Fixpoint spacesFrom (skip : nat) (s : string) : bool :=
  match s with
  | EmptyString =>
      match skip with
      | O => true
      | S _ => false
      end
  | String _ s' =>
      match skip with
      | S k => spacesFrom k s'
      | O =>
          match spaceLength s with
          | S k => spacesFrom k s'
          | O => false
          end
      end
  end.

Definition onlySpaces (s : string) : bool := spacesFrom 0 s.

(** The text up to the white space it ends with. *)
Fixpoint trimEnd (s : string) : string :=
  match s with
  | EmptyString => EmptyString
  | String c s' => if onlySpaces s then EmptyString else String c (trimEnd s')
  end.

(** [s.trim()] *)
Definition trim (s : string) : string := trimEnd (trimStart s).

(** The characters of [s] that lie between the code units [from] and
    [to]: [position] is the index of the code unit the character being
    read starts at, [keep] tells whether that character is kept. *)
Fixpoint unitsBetween (from to position : Z) (keep : bool) (s : string) : string :=
  match s with
  | EmptyString => EmptyString
  | String c s' =>
      if continuation c then
        if keep then String c (unitsBetween from to position keep s')
        else unitsBetween from to position keep s'
      else
        let next := position + units c in
        if (from <=? position) && (next <=? to)
        then String c (unitsBetween from to next true s')
        else unitsBetween from to next false s'
  end.

(** [s.substring(start, end)]: both indexes are brought into
    [0 .. length] and exchanged when the first is the larger. *)
Definition substring (start end_ : Z) (s : string) : string :=
  let len := length s in
  let a := Z.max 0 (Z.min start len) in
  let b := Z.max 0 (Z.min end_ len) in
  unitsBetween (Z.min a b) (Z.max a b) 0 false s.

Section Arrays.
Context {A : Type}.

(** A relative index of [slice], brought into [0 .. len]. *)
Definition clampIndex (len i : Z) : Z :=
  if i <? 0 then Z.max (len + i) 0 else Z.min i len.

(** [a.slice(start, end)] *)
Definition slice (start end_ : Z) (a : list A) : list A :=
  let len := Z.of_nat (List.length a) in
  let k := clampIndex len start in
  let final := clampIndex len end_ in
  firstn (Z.to_nat (final - k)) (skipn (Z.to_nat k) a).

(** [a.sort(compareFn)], which is stable: an element goes in front of
    the first later one that has to come after it, so elements that
    compare equal keep their order. *)
Fixpoint insertSorted (compareFn : A -> A -> Q) (x : A) (l : list A) : list A :=
  match l with
  | [] => [x]
  | y :: l' =>
      if Qle_bool (compareFn x y) 0%Q then x :: l
      else y :: insertSorted compareFn x l'
  end.

Definition sort (compareFn : A -> A -> Q) (a : list A) : list A :=
  fold_right (insertSorted compareFn) [] a.
End Arrays.

(** A thrown value: [new Error(message)], the error of a query that
    names a column the table does not have, or another error raised
    inside the Prisma client. *)
Inductive Exception : Type :=
| Error (message : string)
| PrismaClientValidationError
| PrismaClientError.

(** The number [n] inside a template literal: its decimal digits (an
    integer beyond 2^53 in absolute value would print rounded). *)
Definition numberToString (n : Z) : string :=
  NilZero.string_of_int (Z.to_int n).

End JS.

(** ** The runtime

    [String.prototype.toLowerCase] maps every cased character of Unicode
    and so depends on tables that are not part of the sources. It is
    taken as given, with the two facts about it that are used: on an
    ASCII text it lowers the letters A to Z and keeps the rest, and
    lowering those letters first does not change its result. *)

Class Runtime : Type := {
  toLowerCase : string -> string;
  toLowerCase_ascii :
    forall s, JS.isAscii s = true -> toLowerCase s = JS.asciiLowerCase s;
  toLowerCase_asciiLowerCase :
    forall s, toLowerCase (JS.asciiLowerCase s) = toLowerCase s
}.

(** The runtime restricted to ASCII letters, on which the examples run. *)
#[export] Instance asciiRuntime : Runtime.
Proof.
  refine {| toLowerCase := JS.asciiLowerCase |}.
  - reflexivity.
  - intros s. induction s as [|c s IH]; [reflexivity|].
    cbn [JS.asciiLowerCase]. rewrite IH. f_equal.
    unfold JS.lowerChar at 1.
    destruct ((65 <=? nat_of_ascii (JS.lowerChar c))
              && (nat_of_ascii (JS.lowerChar c) <=? 90))%nat eqn:E; [|reflexivity].
    exfalso. revert E. unfold JS.lowerChar.
    destruct ((65 <=? nat_of_ascii c) && (nat_of_ascii c <=? 90))%nat eqn:F.
    + apply andb_true_iff in F. destruct F as [F1 F2].
      apply Nat.leb_le in F1. apply Nat.leb_le in F2.
      rewrite nat_ascii_embedding by lia.
      intros E. apply andb_true_iff in E. destruct E as [_ E].
      apply Nat.leb_le in E. lia.
    + congruence.
Defined.

(** ** The Prisma client

    The client is a library outside the sources. Its queries are given
    the meaning they have on the SQLite database of [schema.prisma]:
    lookup of a row by its id, and filtered queries that return the
    selected rows most recent first (largest id first), cut to [take]
    rows. A filter that names a column the table does not have is
    refused before anything is sent to the database. *)

Module Prisma.

(** A row of the [Recipe] table, with the columns of [schema.prisma]
    that the functions below read. The other columns are carried along
    unchanged and play no part. *)
Record Recipe : Type := {
  id : Z;
  title : string;
  category : option string;
  ingredients : string
}.

(** [recipe.name] and [recipe.cuisine]: a row has no property of either
    name (the columns are [title] and [category]), so both reads give
    [undefined]. *)
Definition name (r : Recipe) : option string := None.

Definition cuisine (r : Recipe) : option string := None.

(** The filters the functions build. An object with several keys is the
    conjunction of its keys, written [AND]. *)
Inductive RecipeWhereInput : Type :=
| IdNot (n : Z)
| NameContains (keyword : string)
| CuisineContains (keyword : string)
| IngredientsContains (keyword : string)
| OR (clauses : list RecipeWhereInput)
| AND (clauses : list RecipeWhereInput).

(** The filter names only columns of the table: [name] and [cuisine]
    are not among them. *)
Fixpoint knownColumns (w : RecipeWhereInput) : bool :=
  match w with
  | IdNot _ => true
  | NameContains _ => false
  | CuisineContains _ => false
  | IngredientsContains _ => true
  | OR clauses => forallb knownColumns clauses
  | AND clauses => forallb knownColumns clauses
  end.

(** The two wild cards of LIKE. *)
Definition isPercent (c : ascii) : bool := (nat_of_ascii c =? 37)%nat.

Definition isUnderscore (c : ascii) : bool := (nat_of_ascii c =? 95)%nat.

(** Two bytes are the same letter for LIKE: equal, or equal once the
    letters A to Z are lowered. *)
Definition sameLetter (p c : ascii) : bool :=
  Ascii.eqb (JS.lowerChar p) (JS.lowerChar c).

(** The number of bytes of the character a first byte announces. *)
Definition width (c : ascii) : nat :=
  let n := nat_of_ascii c in
  if (n <? 192)%nat then 1
  else if (n <? 224)%nat then 2
  else if (n <? 240)%nat then 3
  else 4.

Fixpoint dropBytes (n : nat) (s : string) : option string :=
  match n with
  | O => Some s
  | S k =>
      match s with
      | EmptyString => None
      | String _ s' => dropBytes k s'
      end
  end.

(** The text after its first character, when it starts with one. *)
Definition dropCharacter (s : string) : option string :=
  match s with
  | EmptyString => None
  | String c _ => if JS.continuation c then None else dropBytes (width c) s
  end.

(** [text LIKE pattern]: [%] stands for any run of characters, [_] for
    any one character, and every other byte for itself, the case of the
    letters A to Z ignored. *)
Fixpoint like (pattern : string) : string -> bool :=
  match pattern with
  | EmptyString =>
      fun text =>
        match text with
        | EmptyString => true
        | String _ _ => false
        end
  | String p pattern' =>
      if isPercent p then
        fix anywhere (text : string) : bool :=
          like pattern' text
          || match text with
             | EmptyString => false
             | String _ text' => anywhere text'
             end
      else if isUnderscore p then
        fun text =>
          match dropCharacter text with
          | Some text' => like pattern' text'
          | None => false
          end
      else
        fun text =>
          match text with
          | EmptyString => false
          | String c text' => sameLetter p c && like pattern' text'
          end
  end.

(** [{ contains: keyword }] on a column: the column is not null and is
    LIKE the keyword between two [%]. *)
Definition contains (column : option string) (keyword : string) : bool :=
  match column with
  | Some text => like ("%" ++ keyword ++ "%") text
  | None => false
  end.

(** The rows a filter selects. An empty [OR] selects no row, an empty
    [AND] every row; a column that does not exist contains nothing. *)
Fixpoint selects (w : RecipeWhereInput) (r : Recipe) : bool :=
  match w with
  | IdNot n => negb (id r =? n)
  | NameContains k => contains (name r) k
  | CuisineContains k => contains (cuisine r) k
  | IngredientsContains k => contains (Some (ingredients r)) k
  | OR clauses => existsb (fun c => selects c r) clauses
  | AND clauses => forallb (fun c => selects c r) clauses
  end.

(** The client: the rows of the table, and whether the database
    answers. *)
Record PrismaClient : Type := {
  table : list Recipe;
  reachable : bool
}.

Inductive Query : Type :=
| FindUnique (n : Z)
| FindMany (where_ : RecipeWhereInput) (take : Z).

(** An asynchronous computation: run against a client, it gives the
    queries handed to the client and the settled outcome. *)
Definition Promise (A : Type) : Type :=
  PrismaClient -> list Query * (JS.Exception + A).

Definition resolve {A} (a : A) : Promise A := fun _ => ([], inr a).

Definition throw {A} (e : JS.Exception) : Promise A := fun _ => ([], inl e).

Definition await {A B} (p : Promise A) (k : A -> Promise B) : Promise B :=
  fun db =>
    match p db with
    | (sent, inl e) => (sent, inl e)
    | (sent, inr a) => let (sent', out) := k a db in ((sent ++ sent')%list, out)
    end.

(** One round trip: the query is recorded, and fails when the database
    does not answer. *)
Definition roundTrip {A} (q : Query) (answer : list Recipe -> A) : Promise A :=
  fun db =>
    ([q], if reachable db then inr (answer (table db)) else inl JS.PrismaClientError).

(** A query the client refuses: it is recorded and rejected. *)
Definition refused {A} (q : Query) : Promise A :=
  fun _ => ([q], inl JS.PrismaClientValidationError).

(** [orderBy: { id: 'desc' }] *)
Definition orderByIdDesc (rows : list Recipe) : list Recipe :=
  JS.sort (fun a b => inject_Z (id b - id a)) rows.

(** [take: n]: the first [n] rows, or the last [-n] when [n] is
    negative. *)
Definition takeRows (n : Z) (rows : list Recipe) : list Recipe :=
  if n <? 0 then skipn (List.length rows - Z.to_nat (- n)) rows
  else firstn (Z.to_nat n) rows.

(** [prisma.recipe.findUnique({ where: { id: n } })] *)
Definition findUnique (n : Z) : Promise (option Recipe) :=
  roundTrip (FindUnique n) (find (fun r => id r =? n)).

(** [prisma.recipe.findMany({ where, take, orderBy: { id: 'desc' } })] *)
Definition findMany (where_ : RecipeWhereInput) (take : Z) : Promise (list Recipe) :=
  if knownColumns where_ then
    roundTrip (FindMany where_ take)
      (fun rows => takeRows take (orderByIdDesc (filter (selects where_) rows)))
  else refused (FindMany where_ take).

End Prisma.

Import Prisma.

Notation "x <- p ;; k" := (await p (fun x => k))
  (at level 61, p at next level, right associativity).

(** ** recipeTools.ts *)

(** A recipe with its score ([{ ...recipe, matchPercentage,
    missingIngredientsCount }]); [matchPercentage] holds the exact value
    of the percentage. *)
Record ScoredRecipe : Type := {
  recipe : Recipe;
  matchPercentage : Q;
  missingIngredientsCount : Z
}.

(** A string in a condition: true unless empty. *)
Definition truthy (s : string) : bool :=
  match s with
  | EmptyString => false
  | _ => true
  end.

Definition extractKeyIngredients (ingredients : string) : list string :=
  JS.slice 0 5
    (filter (fun item => 3 <? JS.length item)
       (map JS.trim (JS.splitOn JS.isCommaOrSemicolon ingredients))).

(** The [keywords] array of [getSimilarRecipes]: the words of the name,
    the cuisine and the key ingredients, each part when the property is
    there and not empty. *)
Definition keywords (recipe : Recipe) : list string :=
  ((match name recipe with
    | Some n => if truthy n then JS.splitSpaces n else []
    | None => []
    end)
   ++ (match cuisine recipe with
       | Some c => if truthy c then [c] else []
       | None => []
       end)
   ++ (if truthy (ingredients recipe) then extractKeyIngredients (ingredients recipe)
       else []))%list.

(** The filter of one keyword: it occurs in the name, the cuisine or the
    ingredients. The filter is written against the columns [name] and
    [cuisine], which the table does not have. *)
Definition keywordClause (keyword : string) : RecipeWhereInput :=
  OR [NameContains keyword; CuisineContains keyword; IngredientsContains keyword].

Definition notFoundMessage (recipeId : Z) : string :=
  "Recette avec l'ID " ++ JS.numberToString recipeId ++ " non trouvée".

(** The reference recipe is looked up, its keywords are collected, and
    the rows other than the reference that satisfy some keyword clause
    are queried. The [catch] block logs the error and throws it again,
    so it leaves the outcome as it is. *)
Definition getSimilarRecipes (recipeId : Z) (limit : Z) : Promise (list Recipe) :=
  found <- findUnique recipeId ;;
  match found with
  | None => throw (JS.Error (notFoundMessage recipeId))
  | Some recipe =>
      let keywords := keywords recipe in
      similarRecipes <-
        findMany (AND [IdNot recipeId; OR (map keywordClause keywords)]) limit ;;
      resolve similarRecipes
  end.

(** The body of the scoring callback, constant by constant. *)
Definition recipeIngredients `{Runtime} (recipe : Recipe) : string :=
  toLowerCase (ingredients recipe).

Definition matchingIngredients `{Runtime} (availableIngredients : list string)
    (recipe : Recipe) : list string :=
  filter (fun ingredient =>
            JS.includes (recipeIngredients recipe) (toLowerCase ingredient))
         availableIngredients.

Definition totalIngredients (recipe : Recipe) : Z :=
  Z.of_nat (List.length (JS.splitOn JS.isCommaOrSemicolon (ingredients recipe))).

(** The callback of [recipes.map]: one recipe with the exact value of
    its percentage and its missing count. *)
Definition score `{Runtime} (availableIngredients : list string) (recipe : Recipe)
  : ScoredRecipe :=
  let matching := Z.of_nat (List.length (matchingIngredients availableIngredients recipe)) in
  let total := totalIngredients recipe in
  {| recipe := recipe;
     matchPercentage := ((inject_Z matching / inject_Z total) * 100)%Q;
     missingIngredientsCount := total - matching |}.

Definition scoredRecipes `{Runtime} (availableIngredients : list string)
    (recipes : list Recipe) : list ScoredRecipe :=
  map (score availableIngredients) recipes.

(** [scoredRecipes.filter(...).sort(...).slice(0, limit)] *)
Definition sortedRecipes (scored : list ScoredRecipe) (limit : Z) : list ScoredRecipe :=
  JS.slice 0 limit
    (JS.sort (fun a b => (matchPercentage b - matchPercentage a)%Q)
       (filter (fun recipe => negb (Qle_bool (matchPercentage recipe) 50%Q)) scored)).

(** An empty list returns at once; otherwise the 1000 most recent rows
    are fetched, scored and ranked. The [catch] block rethrows. *)
Definition findRecipesByAvailableIngredients `{Runtime}
    (availableIngredients : list string) (limit : Z) : Promise (list ScoredRecipe) :=
  if Z.of_nat (List.length availableIngredients) =? 0 then resolve []
  else
    recipes <- findMany (AND []) 1000 ;;
    resolve (sortedRecipes (scoredRecipes availableIngredients recipes) limit).

(** ** The percentage as a double *)

Module Double.

(** The numbers of JavaScript: binary64. *)
Definition prec : Z := 53.

Definition emax : Z := 1024.

(** The double of an integer (exact below 2^53). *)
Definition ofInteger (n : Z) : spec_float := binary_normalize prec emax n 0 false.

Definition divide (x y : spec_float) : spec_float := SFdiv prec emax x y.

Definition multiply (x y : spec_float) : spec_float := SFmul prec emax x y.

(** The rational a finite double stands for (0 for the others). *)
Definition value (x : spec_float) : Q :=
  match x with
  | S754_finite sign m e =>
      ((if sign then -1 else 1) * inject_Z (Z.pos m) * Qpower 2 e)%Q
  | _ => 0%Q
  end.

End Double.

(** [(matchingIngredients.length / totalIngredients) * 100] as the code
    computes it: the quotient is rounded to a double, and so is the
    product. *)
Definition matchPercentageDouble `{Runtime} (availableIngredients : list string)
    (recipe : Recipe) : spec_float :=
  let matching := Z.of_nat (List.length (matchingIngredients availableIngredients recipe)) in
  let total := totalIngredients recipe in
  Double.multiply (Double.divide (Double.ofInteger matching) (Double.ofInteger total))
    (Double.ofInteger 100).

(** ** What the statements speak of *)

(** [sub] occurs in [s]. *)
Definition Substring (sub s : string) : Prop :=
  exists before after, s = before ++ sub ++ after.

(** [n] of the entries of a list satisfy [P], each entry counted on its
    own. *)
Inductive Counts (P : string -> Prop) : list string -> Z -> Prop :=
| Counts_nil : Counts P [] 0
| Counts_hit e l n : P e -> Counts P l n -> Counts P (e :: l) (n + 1)
| Counts_miss e l n : ~ P e -> Counts P l n -> Counts P (e :: l) n.

(** [matchingIngredients.length] *)
Definition matchingCount `{Runtime} (availableIngredients : list string) (r : Recipe) : Z :=
  Z.of_nat (List.length (matchingIngredients availableIngredients r)).

(** The number of characters of [s] in the class [sep]. *)
Fixpoint occurrences (sep : ascii -> bool) (s : string) : Z :=
  match s with
  | EmptyString => 0
  | String c s' => (if sep c then 1 else 0) + occurrences sep s'
  end.

(** Every character of [s] is white space. *)
Definition blank (s : string) : bool := JS.onlySpaces s.

(** The first [n] bytes of [s] are neither commas nor semicolons. *)
Fixpoint noSeparatorIn (n : nat) (s : string) : Prop :=
  match n, s with
  | S k, String c s' => JS.isCommaOrSemicolon c = false /\ noSeparatorIn k s'
  | _, _ => True
  end.

(** The white-space characters of JavaScript, by their code points. *)
Definition whiteSpaceCodePoints : list Z :=
  [9; 10; 11; 12; 13; 32; 160; 5760;
   8192; 8193; 8194; 8195; 8196; 8197; 8198; 8199; 8200; 8201; 8202;
   8232; 8233; 8239; 8287; 12288; 65279].

(** The UTF-8 encoding of a character of the basic plane. *)
Definition encode (codePoint : Z) : string :=
  let byte n := ascii_of_nat (Z.to_nat n) in
  if codePoint <? 128 then String (byte codePoint) ""
  else if codePoint <? 2048 then
    String (byte (192 + codePoint / 64)) (String (byte (128 + codePoint mod 64)) "")
  else
    String (byte (224 + codePoint / 4096))
      (String (byte (128 + (codePoint / 64) mod 64))
         (String (byte (128 + codePoint mod 64)) "")).

(** The lower-case letter of each capital letter of ASCII. *)
Definition lowerLetter (c : ascii) : ascii :=
  match c with
  | "A" => "a" | "B" => "b" | "C" => "c" | "D" => "d" | "E" => "e" | "F" => "f"
  | "G" => "g" | "H" => "h" | "I" => "i" | "J" => "j" | "K" => "k" | "L" => "l"
  | "M" => "m" | "N" => "n" | "O" => "o" | "P" => "p" | "Q" => "q" | "R" => "r"
  | "S" => "s" | "T" => "t" | "U" => "u" | "V" => "v" | "W" => "w" | "X" => "x"
  | "Y" => "y" | "Z" => "z"
  | other => other
  end%char.

(** The lower-cased form of an ASCII text. *)
Fixpoint lowerCased (s : string) : string :=
  match s with
  | EmptyString => EmptyString
  | String c s' => String (lowerLetter c) (lowerCased s')
  end.

(** One character: a first byte followed by the bytes it announces. *)
Definition Character (ch : string) : Prop :=
  exists c rest,
    ch = String c rest /\ JS.continuation c = false /\ String.length ch = width c.

(** [text LIKE pattern], rule by rule. *)
Inductive Like : string -> string -> Prop :=
| Like_end : Like "" ""
| Like_percent pattern skipped text :
    Like pattern text -> Like (String "%" pattern) (skipped ++ text)
| Like_underscore pattern ch text :
    Character ch -> Like pattern text -> Like (String "_" pattern) (ch ++ text)
| Like_letter p c pattern text :
    p <> "%"%char -> p <> "_"%char -> JS.lowerChar p = JS.lowerChar c ->
    Like pattern text -> Like (String p pattern) (String c text).

(** The text contains the keyword as the store understands it. *)
Definition Contains (keyword text : string) : Prop :=
  Like ("%" ++ keyword ++ "%") text.


(** ** Sample rows *)

Definition chickenGarlic : Recipe :=
  {| id := 2; title := "Quick Chicken"; category := None;
     ingredients := "chicken, garlic" |}.

Definition garlicChicken : Recipe :=
  {| id := 5; title := "Garlic Chicken"; category := Some "Italian";
     ingredients := "chicken, garlic, olive oil" |}.

Definition garlicBread : Recipe :=
  {| id := 7; title := "Garlic Bread"; category := None;
     ingredients := "flour, butter" |}.

Definition sampleClient : PrismaClient :=
  {| table := [chickenGarlic; garlicChicken; garlicBread]; reachable := true |}.

(** A recipe without a key ingredient, and a table that holds it. *)
Definition boiledEgg : Recipe :=
  {| id := 4; title := "Boiled Egg"; category := None; ingredients := "oil, egg" |}.

Definition smallClient : PrismaClient :=
  {| table := [boiledEgg; garlicBread]; reachable := true |}.



Section Keys.
Context {A : Type} (key : A -> Q).

(** [a] may stand before [b] in an array sorted by decreasing key. *)
Definition keyOrder (a b : A) : Prop := (key b <= key a)%Q.

(** The key of [a] is [p]. *)
Definition hasKey (p : Q) (a : A) : bool := Qeq_bool (key a) p.
End Keys.

(** ** JavaScript values and the tool handlers *)

Module Json.

(** A number: a finite value, taken exact, or one of the three special
    values a division by zero produces. *)
Inductive Number : Type :=
| Finite (q : Q)
| NaN
| PosInfinity
| NegInfinity.

(** [a / b] for two integers. *)
Definition divide (a b : Z) : Number :=
  if b =? 0 then
    if a =? 0 then NaN else if 0 <? a then PosInfinity else NegInfinity
  else Finite (inject_Z a / inject_Z b).

(** [Math.floor] and [Math.ceil] *)
Definition floor (n : Number) : Number :=
  match n with
  | Finite q => Finite (inject_Z (Qfloor q))
  | other => other
  end.

Definition ceil (n : Number) : Number :=
  match n with
  | Finite q => Finite (inject_Z (Qceiling q))
  | other => other
  end.

(** [n + k] for an integer [k]. *)
Definition plus (n : Number) (k : Z) : Number :=
  match n with
  | Finite q => Finite (q + inject_Z k)
  | other => other
  end.

(** The values the tools hand over: primitives, arrays and plain objects
    (the own enumerable properties, in the order of enumeration). *)
Inductive Value : Type :=
| Null
| Undefined
| Bool (b : bool)
| Num (n : Number)
| Str (s : string)
| BigInt (n : Z)
| Array (items : list Value)
| Object (properties : list (string * Value)).

(** [serializeWithBigInt]: a bigint becomes its decimal string, arrays
    and objects are rebuilt with their items and properties converted,
    every other value is returned as it is. *)
Fixpoint serializeWithBigInt (obj : Value) : Value :=
  match obj with
  | Null => Null
  | Undefined => Undefined
  | BigInt n => Str (JS.numberToString n)
  | Array items => Array (map serializeWithBigInt items)
  | Object properties =>
      Object (map (fun property => (fst property, serializeWithBigInt (snd property)))
                properties)
  | other => other
  end.

(** A bigint occurs somewhere in the value. *)
Fixpoint hasBigInt (v : Value) : bool :=
  match v with
  | BigInt _ => true
  | Array items => existsb hasBigInt items
  | Object properties => existsb (fun property => hasBigInt (snd property)) properties
  | _ => false
  end.

End Json.

Import Json.

Definition optionalString (column : option string) : Value :=
  match column with
  | Some text => Str text
  | None => Null
  end.

(** A row as the client returns it: a plain object with one property per
    column. *)
Definition recipeProperties (r : Recipe) : list (string * Value) :=
  [("id", Num (Finite (inject_Z (id r))));
   ("title", Str (title r));
   ("category", optionalString (category r));
   ("ingredients", Str (ingredients r))].

Definition recipeValue (r : Recipe) : Value := Object (recipeProperties r).

(** [{ ...recipe, matchPercentage, missingIngredientsCount }] *)
Definition scoredRecipeValue (s : ScoredRecipe) : Value :=
  Object (recipeProperties (recipe s)
          ++ [("matchPercentage", Num (Finite (matchPercentage s)));
              ("missingIngredientsCount",
               Num (Finite (inject_Z (missingIngredientsCount s))))])%list.

(** [limit = d] in a destructuring pattern: [d] when the property is
    absent. *)
Definition withDefault (d : Z) (limit : option Z) : Z :=
  match limit with
  | Some n => n
  | None => d
  end.


(** The handler of [findRecipesByAvailableIngredientsTool]. *)
Definition findRecipesByAvailableIngredientsTool `{Runtime}
    (ingredients : list string) (limit : option Z) : Promise Value :=
  let limit := withDefault 10 limit in
  recipes <- findRecipesByAvailableIngredients ingredients limit ;;
  resolve (serializeWithBigInt (Array (map scoredRecipeValue recipes))).

(** [getRecipeById]: the row with that id, or null; the [catch] block
    rethrows. *)
Definition getRecipeById (id : Z) : Promise (option Recipe) :=
  recipe <- findUnique id ;;
  resolve recipe.

Definition notFoundMessageTool (id : Z) : string :=
  "Recette avec l'ID " ++ JS.numberToString id ++ " non trouvée.".

(** The handler of [getRecipeByIdTool]. *)
Definition getRecipeByIdTool (id : Z) : Promise Value :=
  recipe <- getRecipeById id ;;
  match recipe with
  | None => throw (JS.Error (notFoundMessageTool id))
  | Some recipe => resolve (serializeWithBigInt (recipeValue recipe))
  end.

(** ** The search functions

    These functions read more columns of the table, all of them under
    the names of [schema.prisma]. The client is modelled as before, on
    rows with those columns and with [skip] and [count]: a negative
    [skip] is refused by the client, and a negative [take] counts from
    the end of the ordered rows. *)

Module Search.

Record Recipe : Type := {
  id : Z;
  title : string;
  category : option string;
  author : option string;
  description : option string;
  rating : option Q;
  ingredients : string;
  cookTime : option string
}.

Inductive RecipeWhereInput : Type :=
| TitleContains (keyword : string)
| DescriptionContains (keyword : string)
| IngredientsContains (keyword : string)
| CategoryContains (keyword : string)
| AuthorContains (keyword : string)
| RatingGte (bound : Q)
| CookTimeLte (bound : string)
| OR (clauses : list RecipeWhereInput)
| AND (clauses : list RecipeWhereInput).

(** [{ gte: bound }] on the rating and [{ lte: bound }] on the cooking
    time, a text compared as text; a null column satisfies neither. *)
Definition ratingGte (column : option Q) (bound : Q) : bool :=
  match column with
  | Some x => Qle_bool bound x
  | None => false
  end.

Definition textLte (column : option string) (bound : string) : bool :=
  match column with
  | Some text => String.leb text bound
  | None => false
  end.

Fixpoint selects (w : RecipeWhereInput) (r : Recipe) : bool :=
  match w with
  | TitleContains k => contains (Some (title r)) k
  | DescriptionContains k => contains (description r) k
  | IngredientsContains k => contains (Some (ingredients r)) k
  | CategoryContains k => contains (category r) k
  | AuthorContains k => contains (author r) k
  | RatingGte q => ratingGte (rating r) q
  | CookTimeLte s => textLte (cookTime r) s
  | OR clauses => existsb (fun c => selects c r) clauses
  | AND clauses => forallb (fun c => selects c r) clauses
  end.

Record PrismaClient : Type := {
  table : list Recipe;
  reachable : bool
}.

Inductive Query : Type :=
| FindMany (where_ : RecipeWhereInput) (take skip : Z)
| Count (where_ : RecipeWhereInput)
| GroupByCategory.

Definition Promise (A : Type) : Type :=
  PrismaClient -> list Query * (JS.Exception + A).

Definition resolve {A} (a : A) : Promise A := fun _ => ([], inr a).

Definition throw {A} (e : JS.Exception) : Promise A := fun _ => ([], inl e).

Definition await {A B} (p : Promise A) (k : A -> Promise B) : Promise B :=
  fun db =>
    match p db with
    | (sent, inl e) => (sent, inl e)
    | (sent, inr a) => let (sent', out) := k a db in ((sent ++ sent')%list, out)
    end.

Definition orderByIdDesc (rows : list Recipe) : list Recipe :=
  JS.sort (fun a b => inject_Z (id b - id a)) rows.

(** [skip] rows are passed over, then [take] rows are kept; with a
    negative [take] both count from the end. *)
Definition window (take skip : Z) (rows : list Recipe) : list Recipe :=
  if take <? 0 then
    rev (firstn (Z.to_nat (- take)) (skipn (Z.to_nat skip) (rev rows)))
  else firstn (Z.to_nat take) (skipn (Z.to_nat skip) rows).

(** [prisma.recipe.findMany({ where, take, skip, orderBy: { id: 'desc' } })] *)
Definition findMany (where_ : RecipeWhereInput) (take skip : Z) : Promise (list Recipe) :=
  fun db =>
    ([FindMany where_ take skip],
     if reachable db && (0 <=? skip)
     then inr (window take skip (orderByIdDesc (filter (selects where_) (table db))))
     else inl JS.PrismaClientError).

(** [prisma.recipe.count({ where })] *)
Definition count (where_ : RecipeWhereInput) : Promise Z :=
  fun db =>
    ([Count where_],
     if reachable db
     then inr (Z.of_nat (List.length (filter (selects where_) (table db))))
     else inl JS.PrismaClientError).


Definition optionalNumber (column : option Q) : Value :=
  match column with
  | Some x => Num (Finite x)
  | None => Null
  end.

Definition recipeValue (r : Recipe) : Value :=
  Object [("id", Num (Finite (inject_Z (id r))));
          ("title", Str (title r));
          ("category", optionalString (category r));
          ("author", optionalString (author r));
          ("description", optionalString (description r));
          ("rating", optionalNumber (rating r));
          ("ingredients", Str (ingredients r));
          ("cookTime", optionalString (cookTime r))].

Module Options.
Record RecipeSearchOptions : Type := {
  title : option string;
  ingredients : option (list string);
  category : option string;
  author : option string;
  minRating : option Q;
  maxCookTime : option string;
  searchTerm : option string;
  limit : option Z;
  offset : option Z
}.
End Options.

Record PaginatedResult : Type := {
  data : Value;
  total : Z;
  page : Number;
  pageSize : Z;
  totalPages : Number
}.

(** [if (text) { ... }]: the clause of a text option that is present and
    not empty. *)
Definition whenText (text : option string) (clause : string -> RecipeWhereInput)
  : list RecipeWhereInput :=
  match text with
  | Some s => if truthy s then [clause s] else []
  | None => []
  end.

(** The [whereClause] object, key by key. *)
Definition whereClause (options : Options.RecipeSearchOptions) : RecipeWhereInput :=
  AND (whenText (Options.searchTerm options)
         (fun s => OR [TitleContains s; DescriptionContains s; IngredientsContains s])
       ++ whenText (Options.title options) TitleContains
       ++ (match Options.ingredients options with
           | Some l =>
               if 0 <? Z.of_nat (List.length l) then [AND (map IngredientsContains l)]
               else []
           | None => []
           end)
       ++ whenText (Options.category options) CategoryContains
       ++ whenText (Options.author options) AuthorContains
       ++ (match Options.minRating options with
           | Some q => [RatingGte q]
           | None => []
           end)
       ++ whenText (Options.maxCookTime options) CookTimeLte)%list.

(** The rows are queried, then counted; the [catch] block rethrows. *)
Definition searchRecipes (options : Options.RecipeSearchOptions)
  : Promise PaginatedResult :=
  let limit := withDefault 10 (Options.limit options) in
  let offset := withDefault 0 (Options.offset options) in
  let whereClause := whereClause options in
  await (findMany whereClause limit offset) (fun recipes =>
  await (count whereClause) (fun total =>
  let page := plus (floor (divide offset limit)) 1 in
  let totalPages := ceil (divide total limit) in
  let serializedRecipes := serializeWithBigInt (Array (map recipeValue recipes)) in
  resolve {| data := serializedRecipes;
             total := total;
             page := page;
             pageSize := limit;
             totalPages := totalPages |})).

Definition noOptions : Options.RecipeSearchOptions :=
  {| Options.title := None; Options.ingredients := None; Options.category := None;
     Options.author := None; Options.minRating := None; Options.maxCookTime := None;
     Options.searchTerm := None; Options.limit := None; Options.offset := None |}.

(** [searchRecipes({ title, limit, offset })] and its two siblings. *)
Definition searchRecipesByTitle (title : string) (limit offset : option Z)
  : Promise PaginatedResult :=
  searchRecipes
    {| Options.title := Some title; Options.ingredients := None;
       Options.category := None; Options.author := None; Options.minRating := None;
       Options.maxCookTime := None; Options.searchTerm := None;
       Options.limit := Some (withDefault 10 limit);
       Options.offset := Some (withDefault 0 offset) |}.

Definition searchRecipesByIngredient (ingredient : string) (limit offset : option Z)
  : Promise PaginatedResult :=
  searchRecipes
    {| Options.title := None; Options.ingredients := Some [ingredient];
       Options.category := None; Options.author := None; Options.minRating := None;
       Options.maxCookTime := None; Options.searchTerm := None;
       Options.limit := Some (withDefault 10 limit);
       Options.offset := Some (withDefault 0 offset) |}.

Definition searchRecipesByCategory (category : string) (limit offset : option Z)
  : Promise PaginatedResult :=
  searchRecipes
    {| Options.title := None; Options.ingredients := None;
       Options.category := Some category; Options.author := None;
       Options.minRating := None; Options.maxCookTime := None;
       Options.searchTerm := None;
       Options.limit := Some (withDefault 10 limit);
       Options.offset := Some (withDefault 0 offset) |}.

(** [n || d]: [d] when [n] is absent or zero. *)
Definition orElse (n : option Z) (d : Z) : Z :=
  match n with
  | Some x => if x =? 0 then d else x
  | None => d
  end.

(** The handler of [searchRecipesTool]. *)
Definition searchRecipesTool (query : option string) (limit offset : option Z)
    (category ingredient : option string) : Promise PaginatedResult :=
  searchRecipes
    {| Options.searchTerm := query;
       Options.limit := Some (orElse limit 10);
       Options.offset := Some (orElse offset 0);
       Options.category := category;
       Options.ingredients :=
         match ingredient with
         | Some i => if truthy i then Some [i] else None
         | None => None
         end;
       Options.title := None; Options.author := None; Options.minRating := None;
       Options.maxCookTime := None |}.

(** The handler of [searchRecipesByIngredientTool], which queries the
    client itself. *)
Definition searchRecipesByIngredientTool (ingredient : string) (limit offset : option Z)
  : Promise PaginatedResult :=
  let limit := withDefault 10 limit in
  let offset := withDefault 0 offset in
  await (findMany (AND [IngredientsContains ingredient]) limit offset) (fun recipes =>
  await (count (AND [IngredientsContains ingredient])) (fun total =>
  let page := plus (floor (divide offset limit)) 1 in
  let totalPages := ceil (divide total limit) in
  let serializedRecipes := serializeWithBigInt (Array (map recipeValue recipes)) in
  resolve {| data := serializedRecipes;
             total := total;
             page := page;
             pageSize := limit;
             totalPages := totalPages |})).




(** What the options ask of a row; a text option asks that the column
    contains it as the store understands it. *)
Definition Satisfies (options : Options.RecipeSearchOptions) (r : Recipe) : Prop :=
  (forall s, Options.searchTerm options = Some s -> s <> "" ->
             Contains s (title r)
             \/ (exists d, description r = Some d /\ Contains s d)
             \/ Contains s (ingredients r))
  /\ (forall t, Options.title options = Some t -> t <> "" -> Contains t (title r))
  /\ (forall l i, Options.ingredients options = Some l -> In i l ->
                  Contains i (ingredients r))
  /\ (forall c, Options.category options = Some c -> c <> "" ->
                exists x, category r = Some x /\ Contains c x)
  /\ (forall a, Options.author options = Some a -> a <> "" ->
                exists x, author r = Some x /\ Contains a x)
  /\ (forall q, Options.minRating options = Some q ->
                exists x, rating r = Some x /\ (q <= x)%Q)
  /\ (forall m, Options.maxCookTime options = Some m -> m <> "" ->
                exists t, cookTime r = Some t /\ String.leb t m = true).

End Search.

(** The same options with another limit and another offset. *)
Definition pagedOptions (options : Search.Options.RecipeSearchOptions) (limit offset : Z)
  : Search.Options.RecipeSearchOptions :=
  {| Search.Options.title := Search.Options.title options;
     Search.Options.ingredients := Search.Options.ingredients options;
     Search.Options.category := Search.Options.category options;
     Search.Options.author := Search.Options.author options;
     Search.Options.minRating := Search.Options.minRating options;
     Search.Options.maxCookTime := Search.Options.maxCookTime options;
     Search.Options.searchTerm := Search.Options.searchTerm options;
     Search.Options.limit := Some limit;
     Search.Options.offset := Some offset |}.

(** ** Sample rows for the search functions *)

Definition tomatoPasta : Search.Recipe :=
  {| Search.id := 1; Search.title := "Tomato Pasta"; Search.category := Some "Dinner";
     Search.author := Some "Ana"; Search.description := Some "Quick pasta";
     Search.rating := Some (9 # 2); Search.ingredients := "pasta, tomato, garlic";
     Search.cookTime := Some "20 mins" |}.

Definition greenSalad : Search.Recipe :=
  {| Search.id := 2; Search.title := "Green Salad"; Search.category := None;
     Search.author := None; Search.description := None; Search.rating := None;
     Search.ingredients := "lettuce, tomato"; Search.cookTime := None |}.

Definition beefStew : Search.Recipe :=
  {| Search.id := 3; Search.title := "Beef Stew"; Search.category := Some "Dinner";
     Search.author := Some "Bo"; Search.description := Some "Slow stew";
     Search.rating := Some 3%Q; Search.ingredients := "beef, carrot, garlic";
     Search.cookTime := Some "2 hrs" |}.

Definition cookbook : Search.PrismaClient :=
  {| Search.table := [tomatoPasta; greenSalad; beefStew]; Search.reachable := true |}.

(** The options [{ ingredients: ['garlic'] }]. *)
Definition withGarlic : Search.Options.RecipeSearchOptions :=
  {| Search.Options.title := None; Search.Options.ingredients := Some ["garlic"];
     Search.Options.category := None; Search.Options.author := None;
     Search.Options.minRating := None; Search.Options.maxCookTime := None;
     Search.Options.searchTerm := None; Search.Options.limit := None;
     Search.Options.offset := None |}.

(** ** fetchCsvStructure.ts: parseCSVLine *)

Module Csv.

(** The double quote and the comma. *)
Definition quote : ascii := ascii_of_nat 34.

Definition isQuote (c : ascii) : bool := (nat_of_ascii c =? 34)%nat.

Definition isComma (c : ascii) : bool := (nat_of_ascii c =? 44)%nat.

(** The [for] loop over the characters of the line, from the state
    [(inQuotes, current, result)], followed by the push of the last
    field. *)
Fixpoint scan (line : string) (inQuotes : bool) (current : string)
    (result : list string) : list string :=
  match line with
  | EmptyString => (result ++ [JS.trim current])%list
  | String char rest =>
      if isQuote char then scan rest (negb inQuotes) current result
      else if isComma char && negb inQuotes
           then scan rest inQuotes EmptyString (result ++ [JS.trim current])%list
           else scan rest inQuotes (current ++ String char EmptyString) result
  end.

(** [value.startsWith('"')] and [value.endsWith('"')] *)
Definition startsWithQuote (value : string) : bool :=
  match value with
  | String c _ => isQuote c
  | EmptyString => false
  end.

Fixpoint endsWithQuote (value : string) : bool :=
  match value with
  | EmptyString => false
  | String c EmptyString => isQuote c
  | String _ rest => endsWithQuote rest
  end.

(** The callback of the final [map]. *)
Definition stripQuotes (value : string) : string :=
  if startsWithQuote value && endsWithQuote value
  then JS.substring 1 (JS.length value - 1) value
  else value.

Definition parseCSVLine (line : string) : list string :=
  map stripQuotes (scan line false EmptyString []).

End Csv.

(** ** Strings *)




Lemma consHead_length (c : ascii) (pieces : list string) :
  pieces <> [] -> List.length (JS.consHead c pieces) = List.length pieces.
Proof. destruct pieces; [congruence | reflexivity]. Qed.

Lemma splitOn_nonempty (sep : ascii -> bool) (s : string) :
  JS.splitOn sep s <> [].
Proof.
  destruct s as [|c s]; simpl; [discriminate|].
  destruct (sep c); [discriminate|].
  destruct (JS.splitOn sep s); discriminate.
Qed.

Lemma splitOn_length (sep : ascii -> bool) (s : string) :
  Z.of_nat (List.length (JS.splitOn sep s)) = 1 + occurrences sep s.
Proof.
  induction s as [|c s IH]; [reflexivity|].
  cbn [JS.splitOn occurrences]. destruct (sep c).
  - cbn [List.length]. lia.
  - rewrite consHead_length by apply splitOn_nonempty. lia.
Qed.

Lemma splitOn_no_separator (sep : ascii -> bool) (s : string) :
  occurrences sep s = 0 -> JS.splitOn sep s = [s].
Proof.
  assert (Hpos : forall t, 0 <= occurrences sep t).
  { induction t as [|c t IH]; simpl; [lia | destruct (sep c); lia]. }
  induction s as [|c s IH]; [reflexivity|].
  cbn [JS.splitOn occurrences]. specialize (Hpos s).
  destruct (sep c); intros H; [lia|]. now rewrite IH by lia.
Qed.

Lemma splitOn_pieces (sep : ascii -> bool) (s : string) :
  Forall (fun piece => occurrences sep piece = 0) (JS.splitOn sep s).
Proof.
  induction s as [|c s IH]; cbn [JS.splitOn].
  - now repeat constructor.
  - destruct (sep c) eqn:E.
    + now constructor.
    + destruct (JS.splitOn sep s) as [|t ts]; cbn [JS.consHead].
      * repeat constructor. cbn [occurrences]. now rewrite E.
      * inversion IH; subst. constructor; [|assumption].
        cbn [occurrences]. rewrite E. lia.
Qed.


Lemma occurrences_nonneg (sep : ascii -> bool) (s : string) : 0 <= occurrences sep s.
Proof.
  induction s as [|c s IH]; simpl; [lia | destruct (sep c); lia].
Qed.

Lemma append_empty_r (s : string) : (s ++ "")%string = s.
Proof. induction s as [|c s IH]; [reflexivity | cbn; now rewrite IH]. Qed.

Lemma append_assoc (s t u : string) : ((s ++ t) ++ u)%string = (s ++ (t ++ u))%string.
Proof. induction s as [|c s IH]; [reflexivity | cbn; now rewrite IH]. Qed.

Lemma occurrences_app (sep : ascii -> bool) (s t : string) :
  occurrences sep (s ++ t) = occurrences sep s + occurrences sep t.
Proof.
  induction s as [|c s IH]; cbn [append occurrences]; [lia | rewrite IH; lia].
Qed.

(** *** White space and [trim] *)

Lemma trimStartFrom_suffix (skip : nat) (s : string) :
  exists before, s = before ++ JS.trimStartFrom skip s.
Proof.
  revert skip. induction s as [|a s IH]; intros skip; cbn [JS.trimStartFrom].
  - now exists "".
  - destruct skip as [|k].
    + destruct (JS.spaceLength (String a s)) as [|k].
      * now exists "".
      * destruct (IH k) as [before H]. exists (String a before). cbn. now rewrite <- H.
    + destruct (IH k) as [before H]. exists (String a before). cbn. now rewrite <- H.
Qed.

Lemma trimStart_occurrences (sep : ascii -> bool) (s : string) :
  occurrences sep (JS.trimStart s) <= occurrences sep s.
Proof.
  destruct (trimStartFrom_suffix 0 s) as [before H].
  rewrite H at 2. rewrite occurrences_app.
  pose proof (occurrences_nonneg sep before). unfold JS.trimStart. lia.
Qed.

Lemma trimEnd_prefix (s : string) :
  exists after, s = JS.trimEnd s ++ after /\ JS.onlySpaces after = true.
Proof.
  induction s as [|c s IH]; [now exists ""|].
  cbn [JS.trimEnd]. destruct (JS.onlySpaces (String c s)) eqn:E.
  - now exists (String c s).
  - destruct IH as [after [H1 H2]]. exists after. split; [|exact H2].
    cbn. now rewrite <- H1.
Qed.

Lemma trimEnd_occurrences (sep : ascii -> bool) (s : string) :
  occurrences sep (JS.trimEnd s) <= occurrences sep s.
Proof.
  destruct (trimEnd_prefix s) as [after [H _]].
  rewrite H at 2. rewrite occurrences_app.
  pose proof (occurrences_nonneg sep after). lia.
Qed.

Lemma spaceLength_app (s t : string) (k : nat) :
  JS.spaceLength s = S k -> JS.spaceLength (s ++ t) = S k.
Proof.
  destruct s as [|a [|b [|c s]]]; cbn [JS.spaceLength append].
  - discriminate.
  - destruct (JS.isSpace a); [auto | discriminate].
  - destruct (JS.isSpace a); [auto|].
    destruct ((nat_of_ascii a =? 194) && (nat_of_ascii b =? 160))%nat;
      [auto | discriminate].
  - destruct (JS.isSpace a); [auto|].
    destruct ((nat_of_ascii a =? 194) && (nat_of_ascii b =? 160))%nat; auto.
Qed.

Lemma spaceLength_trimStartFrom (skip : nat) (s : string) :
  JS.spaceLength (JS.trimStartFrom skip s) = 0%nat.
Proof.
  revert skip. induction s as [|a s IH]; intros skip; [reflexivity|].
  cbn [JS.trimStartFrom]. destruct skip as [|k]; [|apply IH].
  destruct (JS.spaceLength (String a s)) eqn:E; [exact E | apply IH].
Qed.

Lemma trimStart_fixed (s : string) : JS.spaceLength s = 0%nat -> JS.trimStart s = s.
Proof.
  destruct s as [|a s]; [reflexivity|].
  unfold JS.trimStart. cbn [JS.trimStartFrom]. now intros ->.
Qed.

Lemma spacesFrom_app (skip : nat) (s t : string) :
  JS.spacesFrom skip s = true -> JS.onlySpaces t = true ->
  JS.spacesFrom skip (s ++ t) = true.
Proof.
  revert skip. induction s as [|a s IH]; intros skip.
  - destruct skip; [intros _ H; exact H | discriminate].
  - cbn [append JS.spacesFrom]. destruct skip as [|k]; [|apply IH].
    destruct (JS.spaceLength (String a s)) as [|k] eqn:E; [discriminate|].
    intros H Ht. change (String a (s ++ t)) with (String a s ++ t).
    rewrite (spaceLength_app _ t k E). now apply IH.
Qed.

Lemma trimEnd_idempotent (s : string) : JS.trimEnd (JS.trimEnd s) = JS.trimEnd s.
Proof.
  induction s as [|c s IH]; [reflexivity|].
  cbn [JS.trimEnd]. destruct (JS.onlySpaces (String c s)) eqn:E; [reflexivity|].
  cbn [JS.trimEnd]. destruct (JS.onlySpaces (String c (JS.trimEnd s))) eqn:F.
  - exfalso. destruct (trimEnd_prefix s) as [after [H1 H2]].
    assert (H : JS.onlySpaces (String c (JS.trimEnd s ++ after)) = true).
    { change (String c (JS.trimEnd s ++ after)) with (String c (JS.trimEnd s) ++ after).
      now apply spacesFrom_app. }
    rewrite <- H1 in H. congruence.
  - now rewrite IH.
Qed.

Lemma spaceLength_trimEnd (s : string) :
  JS.spaceLength s = 0%nat -> JS.spaceLength (JS.trimEnd s) = 0%nat.
Proof.
  intros H0. destruct (JS.spaceLength (JS.trimEnd s)) as [|k] eqn:E; [reflexivity|].
  destruct (trimEnd_prefix s) as [after [H1 _]].
  apply (spaceLength_app _ after) in E. rewrite <- H1 in E. congruence.
Qed.

Lemma trim_idempotent (s : string) : JS.trim (JS.trim s) = JS.trim s.
Proof.
  unfold JS.trim.
  rewrite (trimStart_fixed (JS.trimEnd (JS.trimStart s))).
  - apply trimEnd_idempotent.
  - apply spaceLength_trimEnd, spaceLength_trimStartFrom.
Qed.

Lemma trim_occurrences (sep : ascii -> bool) (s : string) :
  occurrences sep s = 0 -> occurrences sep (JS.trim s) = 0.
Proof.
  intros H. unfold JS.trim.
  pose proof (occurrences_nonneg sep (JS.trimEnd (JS.trimStart s))).
  pose proof (trimEnd_occurrences sep (JS.trimStart s)).
  pose proof (trimStart_occurrences sep s). lia.
Qed.

Lemma high_byte_no_separator (c : ascii) :
  (128 <= nat_of_ascii c)%nat -> JS.isCommaOrSemicolon c = false.
Proof.
  intros H. unfold JS.isCommaOrSemicolon.
  destruct (Nat.eqb_spec (nat_of_ascii c) 44); [lia|].
  destruct (Nat.eqb_spec (nat_of_ascii c) 59); [lia | reflexivity].
Qed.

Lemma threeByteSpace_high (x y z : nat) :
  JS.threeByteSpace x y z = true -> (128 <= x /\ 128 <= y /\ 128 <= z)%nat.
Proof.
  unfold JS.threeByteSpace.
  rewrite !orb_true_iff, !andb_true_iff, !orb_true_iff, !andb_true_iff.
  rewrite !Nat.eqb_eq, !Nat.leb_le. lia.
Qed.

Lemma spaceLength_no_separator (s : string) :
  noSeparatorIn (JS.spaceLength s) s.
Proof.
  destruct s as [|a [|b [|c s]]]; cbn [JS.spaceLength]; try exact I.
  - destruct (JS.isSpace a) eqn:E; [|exact I]. split; [|exact I].
    revert E. unfold JS.isSpace, JS.isCommaOrSemicolon.
    destruct (Nat.eqb_spec (nat_of_ascii a) 44) as [->|]; [discriminate|].
    destruct (Nat.eqb_spec (nat_of_ascii a) 59) as [->|]; [discriminate|].
    reflexivity.
  - destruct (JS.isSpace a) eqn:E.
    + split; [|exact I]. revert E. unfold JS.isSpace, JS.isCommaOrSemicolon.
      destruct (Nat.eqb_spec (nat_of_ascii a) 44) as [->|]; [discriminate|].
      destruct (Nat.eqb_spec (nat_of_ascii a) 59) as [->|]; [discriminate|].
      reflexivity.
    + destruct ((nat_of_ascii a =? 194) && (nat_of_ascii b =? 160))%nat eqn:F;
        [|exact I].
      apply andb_true_iff in F. destruct F as [Fa Fb].
      apply Nat.eqb_eq in Fa. apply Nat.eqb_eq in Fb.
      split; [apply high_byte_no_separator; lia|].
      split; [apply high_byte_no_separator; lia | exact I].
  - destruct (JS.isSpace a) eqn:E.
    + split; [|exact I]. revert E. unfold JS.isSpace, JS.isCommaOrSemicolon.
      destruct (Nat.eqb_spec (nat_of_ascii a) 44) as [->|]; [discriminate|].
      destruct (Nat.eqb_spec (nat_of_ascii a) 59) as [->|]; [discriminate|].
      reflexivity.
    + destruct ((nat_of_ascii a =? 194) && (nat_of_ascii b =? 160))%nat eqn:F.
      * apply andb_true_iff in F. destruct F as [Fa Fb].
        apply Nat.eqb_eq in Fa. apply Nat.eqb_eq in Fb.
        split; [apply high_byte_no_separator; lia|].
        split; [apply high_byte_no_separator; lia | exact I].
      * destruct (JS.threeByteSpace (nat_of_ascii a) (nat_of_ascii b) (nat_of_ascii c))
          eqn:G; [|exact I].
        apply threeByteSpace_high in G. destruct G as [Ga [Gb Gc]].
        repeat split; now apply high_byte_no_separator.
Qed.

Lemma spacesFrom_no_separator (skip : nat) (s : string) :
  JS.spacesFrom skip s = true -> noSeparatorIn skip s ->
  occurrences JS.isCommaOrSemicolon s = 0.
Proof.
  revert skip. induction s as [|c s IH]; intros skip; [reflexivity|].
  cbn [JS.spacesFrom occurrences]. destruct skip as [|k].
  - pose proof (spaceLength_no_separator (String c s)) as Hclean.
    destruct (JS.spaceLength (String c s)) as [|k]; [discriminate|].
    destruct Hclean as [Hc Hs]. intros H _. rewrite Hc. now rewrite (IH k H Hs).
  - intros H [Hc Hs]. rewrite Hc. now rewrite (IH k H Hs).
Qed.

Lemma blank_no_separator (s : string) :
  blank s = true -> occurrences JS.isCommaOrSemicolon s = 0.
Proof. intros H. now apply (spacesFrom_no_separator 0 s H). Qed.

Lemma trimEnd_drops (s t : string) :
  t <> "" -> JS.onlySpaces t = true -> JS.trimEnd (s ++ t) <> s ++ t.
Proof.
  intros Hne Ht. induction s as [|c s IH].
  - cbn [append]. destruct t as [|d t]; [congruence|].
    cbn [JS.trimEnd]. rewrite Ht. discriminate.
  - cbn [append JS.trimEnd]. destruct (JS.onlySpaces (String c (s ++ t)));
      [discriminate|].
    intros H. injection H as H. contradiction.
Qed.

Lemma whiteSpace_encoded (c : Z) :
  In c whiteSpaceCodePoints ->
  JS.spaceLength (encode c) <> 0%nat /\ JS.onlySpaces (encode c) = true
  /\ encode c <> "".
Proof.
  unfold whiteSpaceCodePoints. cbn [In]. intros H.
  repeat (destruct H as [<- | H]; [repeat split; discriminate|]).
  destruct H.
Qed.

Lemma trimmed_ends (s : string) (c : Z) (rest : string) :
  In c whiteSpaceCodePoints ->
  JS.trim s <> encode c ++ rest /\ JS.trim s <> rest ++ encode c.
Proof.
  intros Hc. destruct (whiteSpace_encoded c Hc) as [Hlen [Hsp Hne]]. split.
  - intros H.
    assert (H0 : JS.spaceLength (JS.trim s) = 0%nat)
      by apply spaceLength_trimEnd, spaceLength_trimStartFrom.
    destruct (JS.spaceLength (encode c)) as [|k] eqn:E; [congruence|].
    rewrite H, (spaceLength_app _ rest k E) in H0. discriminate.
  - intros H. apply (trimEnd_drops rest (encode c) Hne Hsp).
    rewrite <- H. unfold JS.trim. apply trimEnd_idempotent.
Qed.

(** *** LIKE *)

Lemma isPercent_spec (c : ascii) : isPercent c = true <-> c = "%"%char.
Proof.
  unfold isPercent. rewrite Nat.eqb_eq. split.
  - intros H. now rewrite <- (ascii_nat_embedding c), H.
  - now intros ->.
Qed.

Lemma isUnderscore_spec (c : ascii) : isUnderscore c = true <-> c = "_"%char.
Proof.
  unfold isUnderscore. rewrite Nat.eqb_eq. split.
  - intros H. now rewrite <- (ascii_nat_embedding c), H.
  - now intros ->.
Qed.

Lemma like_percent (pattern text : string) :
  like (String "%" pattern) text
  = like pattern text
    || match text with
       | EmptyString => false
       | String _ text' => like (String "%" pattern) text'
       end.
Proof. now destruct text. Qed.

Lemma like_percent_skip (pattern skipped text : string) :
  like pattern text = true -> like (String "%" pattern) (skipped ++ text) = true.
Proof.
  intros H. induction skipped as [|c skipped IH]; rewrite like_percent.
  - cbn [append]. now rewrite H.
  - cbn [append]. rewrite IH. apply orb_true_r.
Qed.

Lemma dropBytes_app (n : nat) (s t : string) :
  dropBytes n s = Some t <-> exists ch, String.length ch = n /\ s = ch ++ t.
Proof.
  revert s. induction n as [|n IH]; intros s; cbn [dropBytes].
  - split.
    + intros H. injection H as <-. now exists "".
    + intros [ch [Hlen ->]]. destruct ch; [reflexivity | discriminate].
  - destruct s as [|c s].
    + split; [discriminate|]. intros [ch [Hlen H]]. destruct ch; discriminate.
    + rewrite IH. split.
      * intros [ch [Hlen ->]]. exists (String c ch). split; [cbn; now rewrite Hlen | reflexivity].
      * intros [ch [Hlen H]]. destruct ch as [|d ch]; [discriminate|].
        injection H as -> ->. exists ch. split; [now injection Hlen | reflexivity].
Qed.

Lemma dropCharacter_Character (s t : string) :
  dropCharacter s = Some t <-> exists ch, Character ch /\ s = ch ++ t.
Proof.
  unfold dropCharacter, Character. destruct s as [|c s].
  - split; [discriminate|]. intros [ch [[c [rest [-> _]]] H]]. discriminate.
  - destruct (JS.continuation c) eqn:E.
    + split; [discriminate|]. intros [ch [[d [rest [-> [Hd _]]]] H]].
      injection H as -> _. congruence.
    + rewrite dropBytes_app. split.
      * intros [ch [Hlen H]]. exists ch. split; [|exact H].
        destruct ch as [|d rest].
        { exfalso. revert Hlen. unfold width. cbn.
          repeat match goal with |- context [if ?b then _ else _] => destruct b end;
            discriminate. }
        injection H as <- _. now exists c, rest.
      * intros [ch [[d [rest [-> [_ Hlen]]]] H]]. injection H as <- ->.
        exists (String c rest). now split.
Qed.

Lemma like_Like (pattern text : string) : like pattern text = true <-> Like pattern text.
Proof.
  split.
  - revert text. induction pattern as [|p pattern IH]; intros text.
    + destruct text; [constructor | discriminate].
    + cbn [like]. destruct (isPercent p) eqn:Ep.
      * apply isPercent_spec in Ep. subst p.
        induction text as [|c text IHt].
        { rewrite orb_false_r. intros H. apply (Like_percent pattern "" ""). now apply IH. }
        intros [H | H]%orb_true_iff.
        { apply (Like_percent pattern "" (String c text)). now apply IH. }
        apply IHt in H. inversion H; subst.
        { match goal with
          | Hl : Like pattern ?t |- _ => apply (Like_percent pattern (String c skipped) t Hl)
          end. }
        { congruence. }
      * destruct (isUnderscore p) eqn:Eu.
        { apply isUnderscore_spec in Eu. subst p.
          destruct (dropCharacter text) as [text'|] eqn:Ed; [|discriminate].
          apply dropCharacter_Character in Ed. destruct Ed as [ch [Hch ->]].
          intros H. apply Like_underscore; [exact Hch | now apply IH]. }
        destruct text as [|c text]; [discriminate|].
        intros [H1 H2]%andb_true_iff. apply Like_letter.
        { intros ->. discriminate. }
        { intros ->. discriminate. }
        { now apply Ascii.eqb_eq. }
        { now apply IH. }
  - induction 1 as [|pattern skipped text H IH|pattern ch text Hch H IH
                    |p c pattern text Hp Hu Hpc H IH].
    + reflexivity.
    + now apply like_percent_skip.
    + cbn [like]. change (isPercent "_") with false. change (isUnderscore "_") with true.
      assert (Hd : dropCharacter (ch ++ text) = Some text)
        by (apply dropCharacter_Character; now exists ch).
      cbv beta iota. now rewrite Hd.
    + cbn [like].
      destruct (isPercent p) eqn:Ep; [apply isPercent_spec in Ep; contradiction|].
      destruct (isUnderscore p) eqn:Eu; [apply isUnderscore_spec in Eu; contradiction|].
      unfold sameLetter. rewrite Hpc, Ascii.eqb_refl. exact IH.
Qed.

Lemma Like_self (keyword pattern text : string) :
  Like pattern text -> Like (keyword ++ pattern) (keyword ++ text).
Proof.
  intros H. induction keyword as [|c keyword IH]; [exact H|].
  cbn [append]. destruct (ascii_dec c "%") as [->|Hp].
  - apply (Like_percent _ "%" _ IH).
  - destruct (ascii_dec c "_") as [->|Hu].
    + apply (Like_underscore _ "_" _); [|exact IH].
      now exists "_"%char, "".
    + now apply Like_letter.
Qed.

(** A text that holds the keyword as it stands contains it. *)
Lemma Substring_Contains (keyword text : string) :
  Substring keyword text -> Contains keyword text.
Proof.
  intros [before [after ->]]. unfold Contains.
  apply (Like_percent _ before). apply Like_self.
  rewrite <- (append_empty_r after) at 1. apply (Like_percent "" after ""). constructor.
Qed.

Lemma contains_Contains (column : option string) (keyword : string) :
  contains column keyword = true <->
  exists t, column = Some t /\ Contains keyword t.
Proof.
  unfold contains, Contains. destruct column as [t|].
  - rewrite like_Like. split.
    + intros H. now exists t.
    + intros [t' [Ht H]]. now injection Ht as ->.
  - split; [discriminate | intros [t [Ht _]]; discriminate].
Qed.

Lemma contains_text (text keyword : string) :
  contains (Some text) keyword = true <-> Contains keyword text.
Proof.
  rewrite contains_Contains. split.
  - intros [t [Ht H]]. now injection Ht as <-.
  - intros H. now exists text.
Qed.

Lemma contains_empty (text : string) : contains (Some text) "" = true.
Proof. apply contains_text, Substring_Contains. now exists "", text. Qed.

(** ** Arrays *)

Lemma slice_from_0 {A : Type} (limit : Z) (a : list A) :
  JS.slice 0 limit a
  = firstn (Z.to_nat (JS.clampIndex (Z.of_nat (List.length a)) limit)) a.
Proof.
  unfold JS.slice.
  replace (JS.clampIndex (Z.of_nat (List.length a)) 0) with 0.
  - now rewrite Z.sub_0_r.
  - unfold JS.clampIndex. simpl. lia.
Qed.

Lemma firstn_incl {A : Type} (n : nat) (l : list A) (x : A) :
  In x (firstn n l) -> In x l.
Proof.
  intros H. rewrite <- (firstn_skipn n l). apply in_or_app. now left.
Qed.

Lemma skipn_incl {A : Type} (n : nat) (l : list A) (x : A) :
  In x (skipn n l) -> In x l.
Proof.
  intros H. rewrite <- (firstn_skipn n l). apply in_or_app. now right.
Qed.

Lemma firstn_StronglySorted {A : Type} (R : A -> A -> Prop) (n : nat) (l : list A) :
  StronglySorted R l -> StronglySorted R (firstn n l).
Proof.
  intros H. revert n. induction H as [|x l Hl IH Hx]; intros [|n]; simpl;
    try constructor.
  - apply IH.
  - apply Forall_forall. intros y Hy. rewrite Forall_forall in Hx.
    apply Hx. now apply firstn_incl in Hy.
Qed.

Lemma filter_firstn_prefix {A : Type} (P : A -> bool) (n : nat) (l : list A) :
  exists rest, filter P l = (filter P (firstn n l) ++ rest)%list.
Proof.
  exists (filter P (skipn n l)).
  now rewrite <- filter_app, firstn_skipn.
Qed.

Section SortAny.
Context {A : Type} (compareFn : A -> A -> Q).

Lemma insertSorted_In (x y : A) (l : list A) :
  In y (JS.insertSorted compareFn x l) <-> y = x \/ In y l.
Proof.
  induction l as [|z l IH]; simpl.
  - intuition.
  - destruct (Qle_bool (compareFn x z) 0); simpl; [|rewrite IH]; intuition.
Qed.

Lemma sort_In (y : A) (l : list A) :
  In y (JS.sort compareFn l) <-> In y l.
Proof.
  induction l as [|x l IH]; simpl; [reflexivity|].
  rewrite insertSorted_In, IH. intuition.
Qed.

Lemma sort_length (l : list A) :
  List.length (JS.sort compareFn l) = List.length l.
Proof.
  assert (Hins : forall x l', List.length (JS.insertSorted compareFn x l')
                              = S (List.length l')).
  { intros x l'. induction l' as [|z l' IH]; simpl; [reflexivity|].
    destruct (Qle_bool (compareFn x z) 0); simpl; [reflexivity | now rewrite IH]. }
  induction l as [|x l IH]; simpl; [reflexivity|].
  now rewrite Hins, IH.
Qed.
End SortAny.

Section SortByKey.
Context {A : Type} (key : A -> Q).

(** Sorting with the comparator [(a, b) => key(b) - key(a)]: largest key
    first. *)

Lemma descending_le (a b : A) :
  Qle_bool (key b - key a) 0 = true <-> (key b <= key a)%Q.
Proof.
  rewrite Qle_bool_iff. split; intros H.
  - apply Qplus_le_l with (z := (- key a)%Q). now rewrite Qplus_opp_r.
  - apply Qplus_le_l with (z := (- key a)%Q) in H. now rewrite Qplus_opp_r in H.
Qed.

Lemma descending_gt (a b : A) :
  Qle_bool (key b - key a) 0 = false -> (key a < key b)%Q.
Proof.
  intros H. apply Qnot_le_lt. intros Hle.
  apply descending_le in Hle. congruence.
Qed.

Lemma insertSorted_sorted (x : A) (l : list A) :
  StronglySorted (keyOrder key) l ->
  StronglySorted (keyOrder key) (JS.insertSorted (fun a b => key b - key a)%Q x l).
Proof.
  induction 1 as [|z l Hl IH Hz]; simpl.
  - repeat constructor.
  - destruct (Qle_bool (key z - key x) 0) eqn:E.
    + apply descending_le in E. constructor; [now constructor|].
      constructor; [exact E|].
      rewrite Forall_forall in *. intros y Hy. unfold keyOrder in *.
      apply Qle_trans with (key z); auto.
    + apply descending_gt in E. constructor; [exact IH|].
      rewrite Forall_forall in *. intros y Hy.
      apply insertSorted_In in Hy. destruct Hy as [->|Hy]; [|auto].
      now apply Qlt_le_weak.
Qed.

Lemma sort_sorted (l : list A) :
  StronglySorted (keyOrder key) (JS.sort (fun a b => key b - key a)%Q l).
Proof.
  induction l as [|x l IH]; simpl; [constructor|].
  now apply insertSorted_sorted.
Qed.

Lemma insertSorted_stable (p : Q) (x : A) (l : list A) :
  filter (hasKey key p) (JS.insertSorted (fun a b => key b - key a)%Q x l)
  = filter (hasKey key p) (x :: l).
Proof.
  induction l as [|z l IH]; [reflexivity|].
  cbn [JS.insertSorted]. destruct (Qle_bool (key z - key x) 0) eqn:E; [reflexivity|].
  apply descending_gt in E. cbn [filter] in *. rewrite IH.
  destruct (hasKey key p x) eqn:Hx, (hasKey key p z) eqn:Hz; try reflexivity.
  unfold hasKey in Hx, Hz. apply Qeq_bool_iff in Hx, Hz.
  rewrite Hx, Hz in E. now apply Qlt_irrefl in E.
Qed.

Lemma sort_stable (p : Q) (l : list A) :
  filter (hasKey key p) (JS.sort (fun a b => key b - key a)%Q l)
  = filter (hasKey key p) l.
Proof.
  induction l as [|x l IH]; [reflexivity|].
  cbn [JS.sort fold_right]. rewrite insertSorted_stable.
  cbn [filter]. fold (JS.sort (fun a b => key b - key a)%Q l). now rewrite IH.
Qed.
End SortByKey.

(** ** The score of one recipe *)

Lemma totalIngredients_pos (r : Recipe) : 1 <= totalIngredients r.
Proof.
  unfold totalIngredients.
  pose proof (splitOn_nonempty JS.isCommaOrSemicolon (ingredients r)) as H.
  destruct (JS.splitOn JS.isCommaOrSemicolon (ingredients r)); [congruence|].
  cbn [List.length]. lia.
Qed.

Lemma quotient_times_100 (m t : Z) :
  0 < t -> ((inject_Z m / inject_Z t) * 100 == (100 * m) # (Z.to_pos t))%Q.
Proof.
  intros Ht. destruct t as [|p|p]; try lia.
  unfold Qeq, Qdiv, Qmult, Qinv, inject_Z. cbn -[Z.mul Pos.mul]. lia.
Qed.

Lemma score_percentage `{rt : Runtime} (availableIngredients : list string) (r : Recipe) :
  (matchPercentage (score availableIngredients r)
   == (100 * matchingCount availableIngredients r) # (Z.to_pos (totalIngredients r)))%Q.
Proof.
  unfold score, matchingCount. cbn [matchPercentage].
  apply quotient_times_100. pose proof (totalIngredients_pos r). lia.
Qed.

Lemma matchingCount_bounds `{rt : Runtime} (availableIngredients : list string) (r : Recipe) :
  0 <= matchingCount availableIngredients r
       <= Z.of_nat (List.length availableIngredients).
Proof.
  unfold matchingCount, matchingIngredients. split; [lia|].
  apply inj_le, filter_length_le.
Qed.

Lemma matchingCount_app `{rt : Runtime} (l1 l2 : list string) (r : Recipe) :
  matchingCount (l1 ++ l2) r = matchingCount l1 r + matchingCount l2 r.
Proof.
  unfold matchingCount, matchingIngredients.
  rewrite filter_app, length_app. lia.
Qed.

Lemma same_denominator_le (a b : Z) (p : positive) :
  (a # p <= b # p)%Q <-> a <= b.
Proof. unfold Qle. cbn -[Z.mul]. nia. Qed.

Lemma Counts_unique (P : string -> Prop) (l : list string) (n n' : Z) :
  Counts P l n -> Counts P l n' -> n = n'.
Proof.
  intros H. revert n'. induction H as [|e l n He Hl IH|e l n He Hl IH];
    intros n' H'; inversion H'; subst; try contradiction; auto.
  f_equal. auto.
Qed.

Lemma totalIngredients_positive (r : Recipe) :
  exists p, totalIngredients r = Z.pos p.
Proof.
  pose proof (totalIngredients_pos r) as H.
  destruct (totalIngredients r) as [|p|p]; try lia. now exists p.
Qed.

(** C2, as stated, fails: with the pantry chicken, garlic, chick the
    recipe "chicken, garlic" has three matching entries for two tokens,
    so its percentage is 150 and leaves the interval [0, 100]. *)
Lemma matchPercentage_exceeds_100 :
  ~ (0 <= matchPercentage (score ["chicken"; "garlic"; "chick"] chickenGarlic)
     /\ matchPercentage (score ["chicken"; "garlic"; "chick"] chickenGarlic) <= 100)%Q.
Proof.
  intros [_ H]. vm_compute in H. apply H. reflexivity.
Qed.

(** C2, amended: for every recipe and every list of available
    ingredients the percentage is at least 0 and at most 100 times the
    number of entries of the list; it is at most 100 exactly when the
    matching entries are no more than the recipe's tokens. *)
Theorem matchPercentage_range `{rt : Runtime} (availableIngredients : list string) (r : Recipe) :
  (0 <= matchPercentage (score availableIngredients r))%Q
  /\ (matchPercentage (score availableIngredients r)
      <= 100 * inject_Z (Z.of_nat (List.length availableIngredients)))%Q
  /\ ((matchPercentage (score availableIngredients r) <= 100)%Q
      <-> matchingCount availableIngredients r <= totalIngredients r).
Proof.
  pose proof (matchingCount_bounds availableIngredients r) as Hm.
  rewrite !score_percentage.
  destruct (totalIngredients_positive r) as [p ->].
  unfold Qle, Qmult, inject_Z. cbn -[Z.mul Pos.mul].
  repeat split; try nia.
Qed.

(** C4, as stated, fails: the split of the empty text and of a text of
    white space is one token, not the empty sequence. *)
Lemma split_of_empty_text_is_not_empty :
  JS.splitOn JS.isCommaOrSemicolon "" = [""]
  /\ JS.splitOn JS.isCommaOrSemicolon "  " = ["  "]
  /\ JS.splitOn JS.isCommaOrSemicolon "" <> [].
Proof. repeat split. discriminate. Qed.

(** C4, amended: the ingredients text of every recipe splits into at
    least one token, so the divisor of the score is never zero; a text
    that is empty or white space only splits into exactly one token, the
    text itself, and the recipe counts one ingredient. *)
Theorem totalIngredients_never_zero (r : Recipe) :
  1 <= totalIngredients r
  /\ ~ (inject_Z (totalIngredients r) == 0)%Q
  /\ (blank (ingredients r) = true ->
      JS.splitOn JS.isCommaOrSemicolon (ingredients r) = [ingredients r]
      /\ totalIngredients r = 1).
Proof.
  pose proof (totalIngredients_pos r) as H. split; [exact H|]. split.
  - unfold Qeq, inject_Z. cbn. lia.
  - intros Hb. apply blank_no_separator, splitOn_no_separator in Hb.
    split; [exact Hb|]. unfold totalIngredients. now rewrite Hb.
Qed.

Lemma totalIngredients_never_zero_witness :
  blank (ingredients {| id := 3; title := "Recipe"; category := None; ingredients := "  " |})
  = true
  /\ totalIngredients {| id := 3; title := "Recipe"; category := None; ingredients := "  " |}
     = 1.
Proof.
  split; [reflexivity|].
  apply (totalIngredients_never_zero
           {| id := 3; title := "Recipe"; category := None; ingredients := "  " |}).
  reflexivity.
Defined.






(** On ASCII texts every runtime lower-cases alike, so the scores the
    examples compute are those of every runtime. *)
Lemma matchingIngredients_on_ascii `{rt : Runtime} (a : list string) (r : Recipe) :
  forallb JS.isAscii a = true -> JS.isAscii (ingredients r) = true ->
  matchingIngredients a r = @matchingIngredients asciiRuntime a r.
Proof.
  intros Ha Hr. unfold matchingIngredients, recipeIngredients.
  rewrite (toLowerCase_ascii _ Hr). apply filter_ext_in. intros x Hx.
  rewrite forallb_forall in Ha. now rewrite (toLowerCase_ascii x (Ha x Hx)).
Qed.

Lemma score_on_ascii `{rt : Runtime} (a : list string) (r : Recipe) :
  forallb JS.isAscii a = true -> JS.isAscii (ingredients r) = true ->
  score a r = @score asciiRuntime a r
  /\ matchPercentageDouble a r = @matchPercentageDouble asciiRuntime a r.
Proof.
  intros Ha Hr. unfold score, matchPercentageDouble.
  now rewrite (matchingIngredients_on_ascii a r Ha Hr).
Qed.

(** For recipes of up to 60 tokens and up to 120 matching entries, the
    double is above 50 exactly when the exact value is. *)
Lemma threshold_of_double (m t : Z) :
  0 <= m <= 120 -> 1 <= t <= 60 ->
  SFltb (Double.ofInteger 50)
    (Double.multiply (Double.divide (Double.ofInteger m) (Double.ofInteger t))
       (Double.ofInteger 100))
  = negb (Qle_bool ((inject_Z m / inject_Z t) * 100) 50).
Proof.
  intros Hm Ht.
  assert (Hall : forallb (fun m' =>
                   forallb (fun t' =>
                     Bool.eqb
                       (SFltb (Double.ofInteger 50)
                          (Double.multiply
                             (Double.divide (Double.ofInteger (Z.of_nat m'))
                                (Double.ofInteger (Z.of_nat t')))
                             (Double.ofInteger 100)))
                       (negb (Qle_bool ((inject_Z (Z.of_nat m') / inject_Z (Z.of_nat t'))
                                        * 100) 50)))
                     (seq 1 60))
                   (seq 0 121) = true) by (vm_compute; reflexivity).
  rewrite forallb_forall in Hall.
  specialize (Hall (Z.to_nat m)). rewrite forallb_forall in Hall.
  specialize (Hall ltac:(apply in_seq; lia) (Z.to_nat t) ltac:(apply in_seq; lia)).
  rewrite !Z2Nat.id in Hall by lia. now apply Bool.eqb_prop.
Qed.

(** C10: appending one ingredient to the list never lowers a recipe's
    matching count or percentage and never raises its missing count. *)
Theorem score_monotone `{rt : Runtime} (availableIngredients : list string) (extra : string)
    (r : Recipe) :
  matchingCount availableIngredients r <= matchingCount (availableIngredients ++ [extra]) r
  /\ (matchPercentage (score availableIngredients r)
      <= matchPercentage (score (availableIngredients ++ [extra]) r))%Q
  /\ missingIngredientsCount (score (availableIngredients ++ [extra]) r)
     <= missingIngredientsCount (score availableIngredients r).
Proof.
  pose proof (matchingCount_bounds [extra] r) as [Hx _].
  pose proof (matchingCount_app availableIngredients [extra] r) as Happ.
  split; [lia|]. split.
  - rewrite !score_percentage. apply same_denominator_le. lia.
  - unfold score. cbn [missingIngredientsCount].
    fold (matchingCount availableIngredients r).
    fold (matchingCount (availableIngredients ++ [extra]) r). lia.
Qed.

(** ** The ranking step *)

Lemma sortedRecipes_prefix (scored : list ScoredRecipe) (limit : Z) :
  exists n,
    sortedRecipes scored limit
    = firstn n (JS.sort (fun a b => (matchPercentage b - matchPercentage a)%Q)
                  (filter (fun s => negb (Qle_bool (matchPercentage s) 50)) scored)).
Proof.
  unfold sortedRecipes. rewrite slice_from_0. eauto.
Qed.

Lemma sortedRecipes_In (scored : list ScoredRecipe) (limit : Z) (s : ScoredRecipe) :
  In s (sortedRecipes scored limit) ->
  In s scored /\ (50 < matchPercentage s)%Q.
Proof.
  destruct (sortedRecipes_prefix scored limit) as [n ->].
  intros H. apply firstn_incl, sort_In, filter_In in H. destruct H as [H Hs].
  split; [exact H|]. apply Qnot_le_lt. intros Hle.
  apply Qle_bool_iff in Hle. rewrite Hle in Hs. discriminate.
Qed.

(** C3, as stated, fails: with limit -1 the ranker drops the last entry
    only, and two candidates above the threshold leave one. *)
Lemma negative_limit_keeps_entries :
  -1 <= 0
  /\ sortedRecipes (scoredRecipes ["chicken"; "garlic"] [garlicChicken; chickenGarlic]) (-1)
     = [score ["chicken"; "garlic"] chickenGarlic]
  /\ sortedRecipes (scoredRecipes ["chicken"; "garlic"] [garlicChicken; chickenGarlic]) (-1)
     <> [].
Proof.
  split; [lia|]. split; [reflexivity | discriminate].
Qed.

(** C3, amended: the ranker is a total function and raises no error for
    any limit; for limit 0 it returns the empty sequence, and for a
    negative limit it returns the filtered and sorted sequence without
    its last -limit entries. *)
Theorem sortedRecipes_nonpositive_limit (scored : list ScoredRecipe) (limit : Z) :
  limit <= 0 ->
  let ranked :=
    JS.sort (fun a b => (matchPercentage b - matchPercentage a)%Q)
      (filter (fun s => negb (Qle_bool (matchPercentage s) 50)) scored) in
  sortedRecipes scored limit
  = if limit =? 0 then []
    else firstn (List.length ranked - Z.to_nat (- limit)) ranked.
Proof.
  intros Hle ranked. unfold sortedRecipes. fold ranked. rewrite slice_from_0.
  unfold JS.clampIndex. destruct (Z.eqb_spec limit 0) as [->|Hne].
  - cbn. now rewrite Z.min_l by lia.
  - replace (limit <? 0) with true by (symmetry; apply Z.ltb_lt; lia).
    f_equal. lia.
Qed.

Lemma sortedRecipes_nonpositive_limit_witness :
  -1 <= 0
  /\ sortedRecipes (scoredRecipes ["chicken"; "garlic"] [garlicChicken; chickenGarlic]) (-1)
     = [score ["chicken"; "garlic"] chickenGarlic].
Proof.
  assert (H : -1 <= 0) by lia. split; [exact H|].
  rewrite (sortedRecipes_nonpositive_limit
             (scoredRecipes ["chicken"; "garlic"] [garlicChicken; chickenGarlic])
             (-1) H).
  reflexivity.
Defined.

(** ** findRecipesByAvailableIngredients *)

Lemma findMany_resolved (w : RecipeWhereInput) (take : Z) (db : PrismaClient)
    (sent : list Query) (rows : list Recipe) :
  findMany w take db = (sent, inr rows) ->
  rows = takeRows take (orderByIdDesc (filter (selects w) (table db))).
Proof.
  unfold findMany, roundTrip, refused.
  destruct (knownColumns w); [destruct (reachable db)|]; intros H; now inversion H.
Qed.

Lemma findRecipes_resolved `{rt : Runtime} (availableIngredients : list string) (limit : Z)
    (db : PrismaClient) (sent : list Query) (out : list ScoredRecipe) :
  findRecipesByAvailableIngredients availableIngredients limit db = (sent, inr out) ->
  out = []
  \/ exists recipes,
       findMany (AND []) 1000 db = ([FindMany (AND []) 1000], inr recipes)
       /\ out = sortedRecipes (scoredRecipes availableIngredients recipes) limit.
Proof.
  unfold findRecipesByAvailableIngredients.
  destruct (Z.of_nat (List.length availableIngredients) =? 0).
  - intros H. left. now inversion H.
  - unfold await, findMany, roundTrip, resolve. cbn [knownColumns forallb].
    destruct (reachable db); intros H; inversion H. right. eauto.
Qed.

Lemma findRecipes_settles `{rt : Runtime} (availableIngredients : list string) (limit : Z)
    (db : PrismaClient) :
  reachable db = true ->
  exists sent out,
    findRecipesByAvailableIngredients availableIngredients limit db = (sent, inr out).
Proof.
  intros Hup. unfold findRecipesByAvailableIngredients.
  destruct (Z.of_nat (List.length availableIngredients) =? 0).
  - now eexists; eexists.
  - unfold await, findMany, roundTrip, resolve. cbn [knownColumns forallb].
    rewrite Hup. now eexists; eexists.
Qed.

Lemma returned_are_scores `{rt : Runtime} (availableIngredients : list string) (limit : Z)
    (db : PrismaClient) (sent sent' : list Query) (fetched : list Recipe)
    (out : list ScoredRecipe) :
  findMany (AND []) 1000 db = (sent', inr fetched) ->
  findRecipesByAvailableIngredients availableIngredients limit db = (sent, inr out) ->
  Forall (fun s => In (recipe s) fetched /\ s = score availableIngredients (recipe s))
         out.
Proof.
  intros Hfetch H. apply findRecipes_resolved in H.
  destruct H as [-> | [recipes [Hrecipes ->]]]; [constructor|].
  rewrite Hfetch in Hrecipes. inversion Hrecipes; subst recipes.
  apply Forall_forall. intros s Hs. apply sortedRecipes_In in Hs.
  destruct Hs as [Hs _]. unfold scoredRecipes in Hs. apply in_map_iff in Hs.
  destruct Hs as [r [<- Hr]]. now split.
Qed.

(** C6: every entry of the sequence findRecipesByAvailableIngredients
    returns has a percentage strictly above 50; an entry at exactly 50
    is not returned. *)
Theorem returned_above_threshold `{rt : Runtime} (availableIngredients : list string) (limit : Z)
    (db : PrismaClient) (sent : list Query) (out : list ScoredRecipe) :
  findRecipesByAvailableIngredients availableIngredients limit db = (sent, inr out) ->
  Forall (fun s => (50 < matchPercentage s)%Q /\ ~ (matchPercentage s == 50)%Q) out.
Proof.
  intros H. apply Forall_forall. intros s Hs.
  assert (Hlt : (50 < matchPercentage s)%Q).
  { apply findRecipes_resolved in H. destruct H as [-> | [recipes [_ ->]]].
    - destruct Hs.
    - now apply sortedRecipes_In in Hs. }
  split; [exact Hlt|]. intros Heq. rewrite Heq in Hlt. now apply Qlt_irrefl in Hlt.
Qed.

Lemma returned_above_threshold_witness :
  findRecipesByAvailableIngredients ["chicken"; "garlic"] 10 sampleClient
  = ([FindMany (AND []) 1000],
     inr [score ["chicken"; "garlic"] chickenGarlic;
          score ["chicken"; "garlic"] garlicChicken])
  /\ Forall (fun s => (50 < matchPercentage s)%Q /\ ~ (matchPercentage s == 50)%Q)
            [score ["chicken"; "garlic"] chickenGarlic;
             score ["chicken"; "garlic"] garlicChicken].
Proof.
  assert (H : findRecipesByAvailableIngredients ["chicken"; "garlic"] 10 sampleClient
              = ([FindMany (AND []) 1000],
                 inr [score ["chicken"; "garlic"] chickenGarlic;
                      score ["chicken"; "garlic"] garlicChicken]))
    by reflexivity.
  split; [exact H|].
  exact (returned_above_threshold _ _ _ _ _ H).
Defined.

Lemma hasKey_threshold (p : Q) (s : ScoredRecipe) :
  hasKey matchPercentage p s = true ->
  negb (Qle_bool (matchPercentage s) 50) = negb (Qle_bool p 50).
Proof.
  unfold hasKey. intros H. apply Qeq_bool_iff in H. f_equal.
  destruct (Qle_bool (matchPercentage s) 50) eqn:E1, (Qle_bool p 50) eqn:E2;
    try reflexivity.
  - apply Qle_bool_iff in E1. rewrite H in E1. apply Qle_bool_iff in E1. congruence.
  - apply Qle_bool_iff in E2. rewrite <- H in E2. apply Qle_bool_iff in E2. congruence.
Qed.

Lemma filter_key_threshold (p : Q) (scored : list ScoredRecipe) :
  filter (hasKey matchPercentage p)
    (filter (fun s => negb (Qle_bool (matchPercentage s) 50)) scored)
  = if negb (Qle_bool p 50) then filter (hasKey matchPercentage p) scored else [].
Proof.
  induction scored as [|s l IH]; cbn [filter].
  - now destruct (negb (Qle_bool p 50)).
  - destruct (hasKey matchPercentage p s) eqn:Hs.
    + rewrite (hasKey_threshold p s Hs).
      destruct (negb (Qle_bool p 50)) eqn:Hp; [|exact IH].
      cbn [filter]. now rewrite Hs, IH.
    + destruct (negb (Qle_bool (matchPercentage s) 50)); [|exact IH].
      cbn [filter]. now rewrite Hs.
Qed.

Lemma sortedRecipes_stable (p : Q) (scored : list ScoredRecipe) (limit : Z) :
  exists rest,
    filter (hasKey matchPercentage p) scored
    = (filter (hasKey matchPercentage p) (sortedRecipes scored limit) ++ rest)%list.
Proof.
  destruct (sortedRecipes_prefix scored limit) as [n ->].
  set (ranked := JS.sort _ _).
  destruct (filter_firstn_prefix (hasKey matchPercentage p) n ranked) as [rest Hrest].
  unfold ranked in Hrest at 1.
  rewrite (sort_stable matchPercentage), filter_key_threshold in Hrest.
  destruct (negb (Qle_bool p 50)).
  - now exists rest.
  - symmetry in Hrest. apply app_eq_nil in Hrest. destruct Hrest as [-> _].
    now exists (filter (hasKey matchPercentage p) scored).
Qed.

(** C7: the sequence findRecipesByAvailableIngredients returns is sorted
    by decreasing percentage, and for every percentage p its entries at
    p are, in the same order, the first entries at p of the candidates
    as fetched and scored, so entries with equal percentages keep the
    order they were fetched in. *)
Theorem returned_sorted_stable `{rt : Runtime} (availableIngredients : list string) (limit : Z)
    (db : PrismaClient) (sent sent' : list Query) (fetched : list Recipe)
    (out : list ScoredRecipe) :
  findMany (AND []) 1000 db = (sent', inr fetched) ->
  findRecipesByAvailableIngredients availableIngredients limit db = (sent, inr out) ->
  StronglySorted (keyOrder matchPercentage) out
  /\ forall p, exists rest,
       filter (hasKey matchPercentage p) (scoredRecipes availableIngredients fetched)
       = (filter (hasKey matchPercentage p) out ++ rest)%list.
Proof.
  intros Hfetch H. apply findRecipes_resolved in H.
  destruct H as [-> | [recipes [Hrecipes ->]]].
  - split; [constructor|]. intros p. now eexists.
  - rewrite Hfetch in Hrecipes. inversion Hrecipes; subst recipes. split.
    + destruct (sortedRecipes_prefix (scoredRecipes availableIngredients fetched) limit)
        as [n ->].
      apply firstn_StronglySorted, (sort_sorted matchPercentage).
    + intros p. apply sortedRecipes_stable.
Qed.

Lemma returned_sorted_stable_witness :
  StronglySorted (keyOrder matchPercentage)
    [score ["chicken"; "garlic"] chickenGarlic; score ["chicken"; "garlic"] garlicChicken]
  /\ forall p, exists rest,
       filter (hasKey matchPercentage p)
         (scoredRecipes ["chicken"; "garlic"] [garlicBread; garlicChicken; chickenGarlic])
       = (filter (hasKey matchPercentage p)
            [score ["chicken"; "garlic"] chickenGarlic;
             score ["chicken"; "garlic"] garlicChicken] ++ rest)%list.
Proof.
  apply (returned_sorted_stable ["chicken"; "garlic"] 10 sampleClient
           [FindMany (AND []) 1000] [FindMany (AND []) 1000]
           [garlicBread; garlicChicken; chickenGarlic]); reflexivity.
Defined.

(** C8: with an empty list of available ingredients the function
    resolves to the empty sequence for every limit and every state of
    the store, reachable or not, and sends no query: no candidate is
    fetched and none is scored. *)
Theorem empty_pantry_returns_at_once `{rt : Runtime} (limit : Z) (db : PrismaClient) :
  findRecipesByAvailableIngredients [] limit db = ([], inr []).
Proof. reflexivity. Qed.

(** ** getSimilarRecipes *)

Lemma find_absent {A : Type} (f : A -> bool) (l : list A) :
  (forall x, In x l -> f x = false) -> find f l = None.
Proof.
  induction l as [|x l IH]; intros H; [reflexivity|].
  cbn [find]. rewrite (H x) by now left.
  apply IH. intros y Hy. apply H. now right.
Qed.

(** C9: when the store answers and no recipe has the reference id,
    getSimilarRecipes rejects with the error "Recette avec l'ID ... non
    trouvée" after the lookup alone; it does not resolve to null or to an
    empty list. *)
Theorem unknown_reference_is_rejected (recipeId limit : Z) (db : PrismaClient) :
  reachable db = true ->
  (forall r, In r (table db) -> id r <> recipeId) ->
  getSimilarRecipes recipeId limit db
  = ([FindUnique recipeId], inl (JS.Error (notFoundMessage recipeId))).
Proof.
  intros Hup Habsent.
  unfold getSimilarRecipes, await, findUnique, roundTrip. rewrite Hup.
  rewrite find_absent; [reflexivity|].
  intros r Hr. apply Z.eqb_neq. now apply Habsent.
Qed.

Lemma unknown_reference_is_rejected_witness :
  getSimilarRecipes 9 3 sampleClient
  = ([FindUnique 9], inl (JS.Error "Recette avec l'ID 9 non trouvée")).
Proof.
  apply (unknown_reference_is_rejected 9 3 sampleClient).
  - reflexivity.
  - intros r [<- | [<- | [<- | []]]]; discriminate.
Defined.

Lemma takeRows_incl (n : Z) (rows : list Recipe) (r : Recipe) :
  In r (takeRows n rows) -> In r rows.
Proof.
  unfold takeRows. destruct (n <? 0); [apply skipn_incl | apply firstn_incl].
Qed.


Lemma keyword_filter_known (recipeId : Z) (keywords : list string) :
  knownColumns (AND [IdNot recipeId; OR (map keywordClause keywords)])
  = match keywords with
    | [] => true
    | _ :: _ => false
    end.
Proof. now destruct keywords. Qed.

Lemma findMany_run (w : RecipeWhereInput) (take : Z) (db : PrismaClient) :
  reachable db = true ->
  findMany w take db
  = ([FindMany w take],
     if knownColumns w
     then inr (takeRows take (orderByIdDesc (filter (selects w) (table db))))
     else inl JS.PrismaClientValidationError).
Proof.
  intros Hup. unfold findMany, roundTrip, refused.
  destruct (knownColumns w); [now rewrite Hup | reflexivity].
Qed.

Lemma getSimilarRecipes_run (recipeId limit : Z) (db : PrismaClient)
    (reference : Recipe) :
  reachable db = true ->
  find (fun r => id r =? recipeId) (table db) = Some reference ->
  getSimilarRecipes recipeId limit db
  = ([FindUnique recipeId;
      FindMany (AND [IdNot recipeId; OR (map keywordClause (keywords reference))]) limit],
     match keywords reference with
     | [] =>
         inr (takeRows limit
                (orderByIdDesc
                   (filter (selects (AND [IdNot recipeId; OR []])) (table db))))
     | _ :: _ => inl JS.PrismaClientValidationError
     end).
Proof.
  intros Hup Hfind.
  unfold getSimilarRecipes, await, findUnique, roundTrip. rewrite Hup, Hfind.
  rewrite (findMany_run _ limit db Hup), keyword_filter_known.
  now destruct (keywords reference).
Qed.

Lemma getSimilarRecipes_resolved (recipeId limit : Z) (db : PrismaClient)
    (sent : list Query) (out : list Recipe) :
  getSimilarRecipes recipeId limit db = (sent, inr out) ->
  exists reference,
    findUnique recipeId db = ([FindUnique recipeId], inr (Some reference))
    /\ out = takeRows limit
               (orderByIdDesc
                  (filter (selects (AND [IdNot recipeId;
                                         OR (map keywordClause (keywords reference))]))
                     (table db)))
    /\ keywords reference = [].
Proof.
  intros H.
  destruct (reachable db) eqn:Hup.
  - destruct (find (fun r => id r =? recipeId) (table db)) as [reference|] eqn:Hfind.
    + rewrite (getSimilarRecipes_run recipeId limit db reference Hup Hfind) in H.
      exists reference. unfold findUnique, roundTrip. rewrite Hup, Hfind.
      split; [reflexivity|].
      destruct (keywords reference); [|discriminate].
      split; [now inversion H | reflexivity].
    + revert H. unfold getSimilarRecipes, await, findUnique, roundTrip.
      rewrite Hup, Hfind. discriminate.
  - revert H. unfold getSimilarRecipes, await, findUnique, roundTrip.
    rewrite Hup. discriminate.
Qed.

Lemma empty_or_selects_nothing (recipeId : Z) (rows : list Recipe) :
  filter (selects (AND [IdNot recipeId; OR []])) rows = [].
Proof.
  induction rows as [|r rows IH]; [reflexivity|].
  cbn [filter selects forallb existsb] in *. now rewrite andb_false_r.
Qed.

Lemma takeRows_nil (n : Z) : takeRows n [] = [].
Proof.
  unfold takeRows. cbn. destruct (n <? 0); [reflexivity | apply firstn_nil].
Qed.

Lemma no_keyword_rows (recipeId limit : Z) (rows : list Recipe) :
  takeRows limit (orderByIdDesc (filter (selects (AND [IdNot recipeId; OR []])) rows))
  = [].
Proof. rewrite empty_or_selects_nothing. apply takeRows_nil. Qed.




(** ** Worked examples *)

Example split_ingredients :
  JS.splitOn JS.isCommaOrSemicolon "flour, 2 eggs; olive oil"
  = ["flour"; " 2 eggs"; " olive oil"].
Proof. reflexivity. Qed.

Example split_title : JS.splitSpaces "Garlic  Chicken" = ["Garlic"; "Chicken"].
Proof. reflexivity. Qed.

Example key_ingredients :
  extractKeyIngredients "salt; Olive Oil , egg, flour,butter,sugar,yeast,cream,honey"
  = ["salt"; "Olive Oil"; "flour"; "butter"; "sugar"].
Proof. reflexivity. Qed.

Example keywords_of_garlicChicken :
  keywords garlicChicken = ["chicken"; "garlic"; "olive oil"].
Proof. reflexivity. Qed.

Example length_in_code_units :
  JS.length "blé" = 3 /\ JS.length "œuf" = 3 /\ JS.length "crème" = 5.
Proof. repeat split. Qed.

Example key_ingredients_by_code_units :
  extractKeyIngredients "blé, œuf, crème fraîche" = ["crème fraîche"].
Proof. reflexivity. Qed.

Example trim_of_no_break_space :
  JS.trim (encode 160 ++ " sel ") = "sel".
Proof. reflexivity. Qed.

Example white_space_characters :
  forallb (fun c => (JS.spaceLength (encode c) =? String.length (encode c))%nat
                    && String.eqb (JS.trim (encode c ++ "sel" ++ encode c)) "sel"
                    && Nat.eqb (List.length (JS.splitSpaces ("a" ++ encode c ++ "b"))) 2)
          whiteSpaceCodePoints = true
  /\ forallb (fun c => (JS.spaceLength (encode c) =? 0)%nat)
              [0; 8; 14; 31; 33; 133; 161; 5759; 6158; 8191; 8203; 8234; 8288; 12289;
               65278]
     = true.
Proof. split; reflexivity. Qed.

Example contains_is_like :
  contains (Some "Beef Stew") "stew" = true
  /\ contains (Some "Beef Stew") "_eef" = true
  /\ contains (Some "Beef Stew") "B%w" = true
  /\ contains (Some "Beef Stew") "ÉPICE" = false
  /\ contains (Some "épice") "ÉPICE" = false
  /\ contains (Some "blé") "bl_" = true.
Proof. repeat split. Qed.

Example lower_cased_ascii :
  toLowerCase "Olive OIL, 2 Eggs" = "olive oil, 2 eggs"
  /\ lowerCased "Olive OIL, 2 Eggs" = "olive oil, 2 eggs".
Proof. split; reflexivity. Qed.

Example half_is_exact :
  matchPercentageDouble ["rice"] {| id := 1; title := "Recipe"; category := None;
                                    ingredients := "rice, salt" |}
  = Double.ofInteger 50.
Proof. vm_compute. reflexivity. Qed.

Example two_of_five :
  let r := {| id := 1; title := "Recipe"; category := None;
              ingredients := "chicken, rice, onion, garlic, salt" |} in
  matchingCount ["chicken"; "rice"] r = 2
  /\ totalIngredients r = 5
  /\ (matchPercentage (score ["chicken"; "rice"] r) == 40)%Q
  /\ sortedRecipes (scoredRecipes ["chicken"; "rice"] [r]) 10 = [].
Proof. repeat split. Qed.

Example two_of_two :
  matchingCount ["chicken"; "garlic"; "salt"] chickenGarlic = 2
  /\ totalIngredients chickenGarlic = 2
  /\ (matchPercentage (score ["chicken"; "garlic"; "salt"] chickenGarlic) == 100)%Q
  /\ missingIngredientsCount (score ["chicken"; "garlic"; "salt"] chickenGarlic) = 0.
Proof. repeat split. Qed.

Example store_down :
  findRecipesByAvailableIngredients ["rice"] 10 {| table := []; reachable := false |}
  = ([FindMany (AND []) 1000], inl JS.PrismaClientError).
Proof. reflexivity. Qed.

(** ** extractKeyIngredients *)

Lemma slice_from_0_length {A : Type} (n : Z) (a : list A) :
  0 <= n -> Z.of_nat (List.length (JS.slice 0 n a)) = Z.min n (Z.of_nat (List.length a)).
Proof.
  intros Hn. rewrite slice_from_0, length_firstn. unfold JS.clampIndex.
  replace (n <? 0) with false by (symmetry; apply Z.ltb_ge; lia). lia.
Qed.

(** X1: extractKeyIngredients returns at most five items; each one has
    a length (in UTF-16 code units, as item.length counts) greater than
    three, is left as it is by trim, neither starts nor ends with a
    white-space character, holds no comma or semicolon, and is the
    trimmed form of a piece of the split of the text. *)
Theorem extractKeyIngredients_shape (text : string) :
  (List.length (extractKeyIngredients text) <= 5)%nat
  /\ Forall (fun item =>
               3 < JS.length item
               /\ JS.trim item = item
               /\ (forall c rest, In c whiteSpaceCodePoints ->
                                  item <> encode c ++ rest /\ item <> rest ++ encode c)
               /\ occurrences JS.isCommaOrSemicolon item = 0
               /\ exists piece,
                    In piece (JS.splitOn JS.isCommaOrSemicolon text)
                    /\ item = JS.trim piece)
            (extractKeyIngredients text).
Proof.
  unfold extractKeyIngredients. split.
  - pose proof (slice_from_0_length 5
                  (filter (fun item => 3 <? JS.length item)
                     (map JS.trim (JS.splitOn JS.isCommaOrSemicolon text)))) as H.
    lia.
  - apply Forall_forall. intros item Hitem.
    rewrite slice_from_0 in Hitem. apply firstn_incl, filter_In in Hitem.
    destruct Hitem as [Hin Hlen]. apply in_map_iff in Hin.
    destruct Hin as [piece [<- Hpiece]].
    split; [now apply Z.ltb_lt|]. split; [apply trim_idempotent|].
    split; [intros c rest Hc; now apply trimmed_ends|]. split.
    + pose proof (splitOn_pieces JS.isCommaOrSemicolon text) as Hclean.
      rewrite Forall_forall in Hclean. specialize (Hclean piece Hpiece).
      pose proof (occurrences_nonneg JS.isCommaOrSemicolon (JS.trim piece)).
      pose proof (trimEnd_occurrences JS.isCommaOrSemicolon (JS.trimStart piece)).
      pose proof (trimStart_occurrences JS.isCommaOrSemicolon piece).
      unfold JS.trim in *. lia.
    + now exists piece.
Qed.

(** ** More on getSimilarRecipes *)

Lemma skipn_StronglySorted {A : Type} (R : A -> A -> Prop) (n : nat) (l : list A) :
  StronglySorted R l -> StronglySorted R (skipn n l).
Proof.
  intros H. revert n. induction H as [|x l Hl IH Hx]; intros [|n]; simpl;
    try constructor; auto.
Qed.

Lemma orderByIdDesc_sorted (rows : list Recipe) :
  StronglySorted (fun a b => id b <= id a) (orderByIdDesc rows).
Proof.
  assert (Hle : forall x y, Qle_bool (inject_Z (id y - id x)) 0 = true -> id y <= id x).
  { intros x y H. apply Qle_bool_iff in H. unfold Qle in H. simpl in H. lia. }
  assert (Hgt : forall x y, Qle_bool (inject_Z (id y - id x)) 0 = false -> id x <= id y).
  { intros x y H. destruct (Z.le_gt_cases (id x) (id y)) as [|Hlt]; [assumption|].
    assert (Qle_bool (inject_Z (id y - id x)) 0 = true); [|congruence].
    apply Qle_bool_iff. unfold Qle. simpl. lia. }
  unfold orderByIdDesc. induction rows as [|x rows IH]; simpl; [constructor|].
  revert IH. generalize (JS.sort (fun a b => inject_Z (id b - id a)) rows).
  intros l Hl. induction Hl as [|z l Hl IH Hz]; simpl.
  - repeat constructor.
  - destruct (Qle_bool (inject_Z (id z - id x)) 0) eqn:E.
    + apply Hle in E. constructor; [now constructor|]. constructor; [exact E|].
      rewrite Forall_forall in *. intros y Hy. specialize (Hz y Hy). lia.
    + apply Hgt in E. constructor; [exact IH|].
      rewrite Forall_forall in *. intros y Hy.
      apply insertSorted_In in Hy. destruct Hy as [->|Hy]; auto.
Qed.


Lemma takeRows_all (n : Z) (rows : list Recipe) :
  Z.of_nat (List.length rows) <= n -> takeRows n rows = rows.
Proof.
  intros H. unfold takeRows.
  replace (n <? 0) with false by (symmetry; apply Z.ltb_ge; lia).
  apply firstn_all2. lia.
Qed.




Lemma getSimilarRecipes_without_keyword (recipeId limit : Z) (db : PrismaClient)
    (reference : Recipe) :
  reachable db = true ->
  find (fun r => id r =? recipeId) (table db) = Some reference ->
  keywords reference = [] ->
  getSimilarRecipes recipeId limit db
  = ([FindUnique recipeId; FindMany (AND [IdNot recipeId; OR []]) limit], inr []).
Proof.
  intros Hup Hfind Hk.
  rewrite (getSimilarRecipes_run recipeId limit db reference Hup Hfind), Hk.
  cbn [map]. now rewrite no_keyword_rows.
Qed.

(** X3: when the reference recipe gives no keyword (no title word, no
    category, no key ingredient), getSimilarRecipes resolves to the empty
    list for every limit: the empty OR selects no row. *)
Theorem no_keyword_no_similar_recipe (recipeId limit : Z) (db : PrismaClient)
    (reference : Recipe) :
  reachable db = true ->
  find (fun r => id r =? recipeId) (table db) = Some reference ->
  keywords reference = [] ->
  getSimilarRecipes recipeId limit db
  = ([FindUnique recipeId; FindMany (AND [IdNot recipeId; OR []]) limit], inr []).
Proof.
  intros Hup Hfind Hk. now apply getSimilarRecipes_without_keyword with reference.
Qed.

Lemma no_keyword_no_similar_recipe_witness :
  getSimilarRecipes 4 3
    {| table := [{| id := 4; title := "Recipe"; category := None;
                    ingredients := "oil, egg" |};
                 garlicBread];
       reachable := true |}
  = ([FindUnique 4; FindMany (AND [IdNot 4; OR []]) 3], inr []).
Proof.
  apply (no_keyword_no_similar_recipe 4 3 _
           {| id := 4; title := "Recipe"; category := None; ingredients := "oil, egg" |});
    reflexivity.
Defined.

(** X4: when the store answers and the reference recipe has a key
    ingredient, getSimilarRecipes rejects at its second query: its
    keywords are the key ingredients, and the filter built from them
    names the columns name and cuisine, which the table does not have,
    so the client refuses it. *)
Theorem similar_filter_is_refused (recipeId limit : Z) (db : PrismaClient)
    (reference : Recipe) :
  reachable db = true ->
  find (fun r => id r =? recipeId) (table db) = Some reference ->
  extractKeyIngredients (ingredients reference) <> [] ->
  keywords reference = extractKeyIngredients (ingredients reference)
  /\ getSimilarRecipes recipeId limit db
     = ([FindUnique recipeId;
         FindMany (AND [IdNot recipeId; OR (map keywordClause (keywords reference))])
           limit],
        inl JS.PrismaClientValidationError).
Proof.
  intros Hup Hfind Hkey.
  assert (Hk : keywords reference = extractKeyIngredients (ingredients reference)).
  { unfold keywords. cbn [name cuisine app].
    destruct (ingredients reference) as [|c text] eqn:E; [|reflexivity].
    now destruct Hkey. }
  split; [exact Hk|].
  rewrite (getSimilarRecipes_run recipeId limit db reference Hup Hfind).
  rewrite Hk in *. now destruct (extractKeyIngredients (ingredients reference)).
Qed.

Lemma similar_filter_is_refused_witness :
  keywords garlicChicken = extractKeyIngredients (ingredients garlicChicken)
  /\ getSimilarRecipes 5 3 sampleClient
     = ([FindUnique 5;
         FindMany (AND [IdNot 5; OR (map keywordClause (keywords garlicChicken))]) 3],
        inl JS.PrismaClientValidationError).
Proof.
  apply (similar_filter_is_refused 5 3 sampleClient garlicChicken);
    [reflexivity | reflexivity | discriminate].
Defined.

Lemma includes_empty (s : string) : JS.includes s "" = true.
Proof. destruct s; reflexivity. Qed.

(** X5: getSimilarRecipes never returns a row: whenever it resolves, it
    resolves to the empty list, and the reference recipe is one without
    a key ingredient, for which the filter is the empty OR. *)
Theorem similar_recipes_resolve_to_nothing (recipeId limit : Z) (db : PrismaClient)
    (sent : list Query) (out : list Recipe) :
  getSimilarRecipes recipeId limit db = (sent, inr out) ->
  out = []
  /\ sent = [FindUnique recipeId; FindMany (AND [IdNot recipeId; OR []]) limit]
  /\ exists reference,
       In reference (table db) /\ id reference = recipeId
       /\ extractKeyIngredients (ingredients reference) = [].
Proof.
  intros H. pose proof H as Hres. apply getSimilarRecipes_resolved in Hres.
  destruct Hres as [reference [Href [Hout Hk]]].
  unfold findUnique, roundTrip in Href.
  destruct (reachable db) eqn:Hup; [|discriminate].
  destruct (find (fun r => id r =? recipeId) (table db)) as [r|] eqn:Hfind;
    [|discriminate].
  assert (r = reference) by now inversion Href. subst r.
  rewrite (getSimilarRecipes_without_keyword recipeId limit db reference Hup Hfind Hk)
    in H.
  split; [now inversion H|]. split; [now inversion H|].
  exists reference. apply find_some in Hfind. destruct Hfind as [Hin Hid].
  split; [exact Hin|]. split; [now apply Z.eqb_eq|].
  revert Hk. unfold keywords. cbn [name cuisine app].
  destruct (ingredients reference); [reflexivity | exact (fun e => e)].
Qed.

Lemma similar_recipes_resolve_to_nothing_witness :
  (@nil Recipe) = []
  /\ [FindUnique 4; FindMany (AND [IdNot 4; OR []]) 3]
     = [FindUnique 4; FindMany (AND [IdNot 4; OR []]) 3]
  /\ exists reference,
       In reference (table smallClient) /\ id reference = 4
       /\ extractKeyIngredients (ingredients reference) = [].
Proof.
  apply (similar_recipes_resolve_to_nothing 4 3 smallClient
           [FindUnique 4; FindMany (AND [IdNot 4; OR []]) 3] []).
  reflexivity.
Defined.

(** X6: when the database does not answer, both functions reject with
    the error of the client, unchanged, after their first query; only
    the call with an empty list of available ingredients still resolves.  *)
Theorem store_failure_is_propagated `{rt : Runtime} (db : PrismaClient) (recipeId limit : Z)
    (availableIngredients : list string) :
  reachable db = false ->
  getSimilarRecipes recipeId limit db = ([FindUnique recipeId], inl JS.PrismaClientError)
  /\ (availableIngredients <> [] ->
      findRecipesByAvailableIngredients availableIngredients limit db
      = ([FindMany (AND []) 1000], inl JS.PrismaClientError)).
Proof.
  intros Hdown. split.
  - unfold getSimilarRecipes, await, findUnique, roundTrip. now rewrite Hdown.
  - intros Hne. unfold findRecipesByAvailableIngredients.
    destruct availableIngredients as [|a l]; [congruence|].
    cbn [List.length]. rewrite Nat2Z.inj_succ.
    replace (Z.succ (Z.of_nat (List.length l)) =? 0) with false
      by (symmetry; apply Z.eqb_neq; lia).
    unfold await, findMany, roundTrip. cbn [knownColumns forallb]. now rewrite Hdown.
Qed.

Lemma store_failure_is_propagated_witness :
  getSimilarRecipes 5 3 {| table := [garlicChicken]; reachable := false |}
  = ([FindUnique 5], inl JS.PrismaClientError)
  /\ (["rice"] <> [] ->
      findRecipesByAvailableIngredients ["rice"] 3
        {| table := [garlicChicken]; reachable := false |}
      = ([FindMany (AND []) 1000], inl JS.PrismaClientError)).
Proof.
  apply (store_failure_is_propagated
           {| table := [garlicChicken]; reachable := false |} 5 3 ["rice"]).
  reflexivity.
Defined.

(** ** More on findRecipesByAvailableIngredients *)

Lemma findRecipes_cases `{rt : Runtime} (availableIngredients : list string) (limit : Z)
    (db : PrismaClient) (sent sent' : list Query) (fetched : list Recipe)
    (out : list ScoredRecipe) :
  findMany (AND []) 1000 db = (sent', inr fetched) ->
  findRecipesByAvailableIngredients availableIngredients limit db = (sent, inr out) ->
  (availableIngredients = [] /\ out = [])
  \/ out = sortedRecipes (scoredRecipes availableIngredients fetched) limit.
Proof.
  intros Hfetch. unfold findRecipesByAvailableIngredients.
  destruct availableIngredients as [|a l].
  - intros H. left. now inversion H.
  - cbn [List.length]. rewrite Nat2Z.inj_succ.
    replace (Z.succ (Z.of_nat (List.length l)) =? 0) with false
      by (symmetry; apply Z.eqb_neq; lia).
    unfold await. rewrite Hfetch. unfold resolve. intros H. right. now inversion H.
Qed.

Lemma empty_pantry_scores_nothing `{rt : Runtime} (recipes : list Recipe) (limit : Z) :
  sortedRecipes (scoredRecipes [] recipes) limit = [].
Proof.
  unfold sortedRecipes.
  replace (filter (fun s => negb (Qle_bool (matchPercentage s) 50))
             (scoredRecipes [] recipes)) with (@nil ScoredRecipe).
  - unfold JS.slice. cbn. now rewrite firstn_nil.
  - symmetry. induction recipes as [|r l IH]; [reflexivity|].
    cbn [scoredRecipes map filter].
    replace (Qle_bool (matchPercentage (score [] r)) 50) with true; [exact IH|].
    symmetry. apply Qle_bool_iff. rewrite score_percentage.
    unfold matchingCount, matchingIngredients. cbn [filter List.length].
    unfold Qle. cbn. lia.
Qed.

Lemma findRecipes_ranked `{rt : Runtime} (availableIngredients : list string) (limit : Z)
    (db : PrismaClient) (sent sent' : list Query) (fetched : list Recipe)
    (out : list ScoredRecipe) :
  findMany (AND []) 1000 db = (sent', inr fetched) ->
  findRecipesByAvailableIngredients availableIngredients limit db = (sent, inr out) ->
  out = sortedRecipes (scoredRecipes availableIngredients fetched) limit.
Proof.
  intros Hfetch H.
  destruct (findRecipes_cases _ _ _ _ _ _ _ Hfetch H) as [[-> ->] | ->];
    [symmetry; apply empty_pantry_scores_nothing | reflexivity].
Qed.

Lemma findRecipes_run `{rt : Runtime} (availableIngredients : list string) (limit : Z)
    (db : PrismaClient) (sent : list Query) (out : list ScoredRecipe) :
  findRecipesByAvailableIngredients availableIngredients limit db = (sent, inr out) ->
  out = sortedRecipes
          (scoredRecipes availableIngredients
             (takeRows 1000 (orderByIdDesc (filter (selects (AND [])) (table db)))))
          limit.
Proof.
  unfold findRecipesByAvailableIngredients.
  destruct availableIngredients as [|a l].
  - intros H. inversion H. symmetry. apply empty_pantry_scores_nothing.
  - cbn [List.length]. rewrite Nat2Z.inj_succ.
    replace (Z.succ (Z.of_nat (List.length l)) =? 0) with false
      by (symmetry; apply Z.eqb_neq; lia).
    unfold await, findMany, roundTrip, resolve. cbn [knownColumns forallb].
    destruct (reachable db); intros H; now inversion H.
Qed.

Lemma findRecipes_on_ascii `{rt : Runtime} (a : list string) (limit : Z)
    (db : PrismaClient) :
  forallb JS.isAscii a = true ->
  forallb (fun r => JS.isAscii (ingredients r)) (table db) = true ->
  findRecipesByAvailableIngredients a limit db
  = @findRecipesByAvailableIngredients asciiRuntime a limit db.
Proof.
  intros Ha Hdb. unfold findRecipesByAvailableIngredients.
  destruct (Z.of_nat (List.length a) =? 0); [reflexivity|].
  unfold await. destruct (findMany (AND []) 1000 db) as [sent [e|recipes]] eqn:E;
    [reflexivity|].
  apply findMany_resolved in E.
  replace (scoredRecipes a recipes) with (@scoredRecipes asciiRuntime a recipes);
    [reflexivity|].
  unfold scoredRecipes. apply map_ext_in. intros r Hr. symmetry.
  apply score_on_ascii; [exact Ha|].
  rewrite forallb_forall in Hdb. apply Hdb.
  rewrite E in Hr. now apply takeRows_incl, sort_In, filter_In in Hr.
Qed.

Lemma sort_Permutation {A : Type} (compareFn : A -> A -> Q) (l : list A) :
  Permutation (JS.sort compareFn l) l.
Proof.
  assert (Hins : forall x l', Permutation (JS.insertSorted compareFn x l') (x :: l')).
  { intros x l'. induction l' as [|z l' IH]; simpl; [reflexivity|].
    destruct (Qle_bool (compareFn x z) 0); [reflexivity|].
    rewrite IH. apply perm_swap. }
  induction l as [|x l IH]; simpl; [constructor|].
  rewrite Hins. now constructor.
Qed.

(** X7: for a limit that is not negative, findRecipesByAvailableIngredients
    returns min(limit, number of fetched candidates above the threshold)
    entries; when the limit is at least that number, the entries returned
    are exactly the candidates above the threshold, rearranged. *)
Theorem returned_count `{rt : Runtime} (availableIngredients : list string) (limit : Z)
    (db : PrismaClient) (sent sent' : list Query) (fetched : list Recipe)
    (out : list ScoredRecipe) :
  findMany (AND []) 1000 db = (sent', inr fetched) ->
  findRecipesByAvailableIngredients availableIngredients limit db = (sent, inr out) ->
  0 <= limit ->
  let passing :=
    filter (fun s => negb (Qle_bool (matchPercentage s) 50))
      (scoredRecipes availableIngredients fetched) in
  Z.of_nat (List.length out) = Z.min limit (Z.of_nat (List.length passing))
  /\ (Z.of_nat (List.length passing) <= limit -> Permutation out passing).
Proof.
  intros Hfetch H Hlimit passing.
  rewrite (findRecipes_ranked _ _ _ _ _ _ _ Hfetch H).
  unfold sortedRecipes. fold passing. split.
  - rewrite slice_from_0_length by exact Hlimit. now rewrite sort_length.
  - intros Hall. rewrite slice_from_0. unfold JS.clampIndex.
    replace (limit <? 0) with false by (symmetry; apply Z.ltb_ge; lia).
    rewrite firstn_all2 by (rewrite sort_length; lia).
    apply sort_Permutation.
Qed.

Lemma returned_count_witness :
  Z.of_nat (List.length [score ["chicken"; "garlic"] chickenGarlic])
  = Z.min 1 (Z.of_nat (List.length
                         (filter (fun s => negb (Qle_bool (matchPercentage s) 50))
                            (scoredRecipes ["chicken"; "garlic"]
                               [garlicBread; garlicChicken; chickenGarlic]))))
  /\ (Z.of_nat (List.length
                  (filter (fun s => negb (Qle_bool (matchPercentage s) 50))
                     (scoredRecipes ["chicken"; "garlic"]
                        [garlicBread; garlicChicken; chickenGarlic]))) <= 1 ->
      Permutation [score ["chicken"; "garlic"] chickenGarlic]
        (filter (fun s => negb (Qle_bool (matchPercentage s) 50))
           (scoredRecipes ["chicken"; "garlic"]
              [garlicBread; garlicChicken; chickenGarlic]))).
Proof.
  apply (returned_count ["chicken"; "garlic"] 1 sampleClient
           [FindMany (AND []) 1000] [FindMany (AND []) 1000]
           [garlicBread; garlicChicken; chickenGarlic]); [reflexivity | reflexivity | lia].
Defined.

(** X8: a larger limit only adds entries at the end: for limits
    0 <= k <= k', the sequence returned for k is the beginning of the
    sequence returned for k'. *)
Theorem larger_limit_extends `{rt : Runtime} (availableIngredients : list string) (k k' : Z)
    (db : PrismaClient) (sent sent' : list Query) (out out' : list ScoredRecipe) :
  findRecipesByAvailableIngredients availableIngredients k db = (sent, inr out) ->
  findRecipesByAvailableIngredients availableIngredients k' db = (sent', inr out') ->
  0 <= k <= k' ->
  exists rest, out' = (out ++ rest)%list.
Proof.
  intros H H' Hk.
  apply findRecipes_run in H. apply findRecipes_run in H'. subst out out'.
  unfold sortedRecipes. rewrite !slice_from_0. unfold JS.clampIndex.
  replace (k <? 0) with false by (symmetry; apply Z.ltb_ge; lia).
  replace (k' <? 0) with false by (symmetry; apply Z.ltb_ge; lia).
  set (ranked := JS.sort _ _).
  exists (skipn (Z.to_nat (Z.min k (Z.of_nat (List.length ranked))))
            (firstn (Z.to_nat (Z.min k' (Z.of_nat (List.length ranked)))) ranked)).
  rewrite <- (firstn_skipn (Z.to_nat (Z.min k (Z.of_nat (List.length ranked))))
                (firstn (Z.to_nat (Z.min k' (Z.of_nat (List.length ranked)))) ranked))
    at 1.
  f_equal. rewrite firstn_firstn. f_equal. lia.
Qed.

Lemma larger_limit_extends_witness :
  exists rest,
    [score ["chicken"; "garlic"] chickenGarlic; score ["chicken"; "garlic"] garlicChicken]
    = ([score ["chicken"; "garlic"] chickenGarlic] ++ rest)%list.
Proof.
  apply (larger_limit_extends ["chicken"; "garlic"] 1 10 sampleClient
           [FindMany (AND []) 1000] [FindMany (AND []) 1000]);
    [reflexivity | reflexivity | lia].
Defined.

(** X9: every recipe findRecipesByAvailableIngredients returns matches
    at least one available ingredient, and its missing count is less
    than half of its number of tokens. *)
Theorem returned_miss_less_than_half `{rt : Runtime} (availableIngredients : list string) (limit : Z)
    (db : PrismaClient) (sent : list Query) (out : list ScoredRecipe) :
  findRecipesByAvailableIngredients availableIngredients limit db = (sent, inr out) ->
  Forall (fun s =>
            1 <= matchingCount availableIngredients (recipe s)
            /\ 2 * missingIngredientsCount s < totalIngredients (recipe s))
         out.
Proof.
  intros H. apply findRecipes_run in H. subst out.
  apply Forall_forall. intros s Hs. apply sortedRecipes_In in Hs.
  destruct Hs as [Hs Hlt]. unfold scoredRecipes in Hs. apply in_map_iff in Hs.
  destruct Hs as [r [<- _]].
  rewrite score_percentage in Hlt.
  destruct (totalIngredients_positive r) as [p Hp].
  unfold score. cbn [recipe missingIngredientsCount].
  fold (matchingCount availableIngredients r).
  rewrite Hp in *. unfold Qlt in Hlt. cbn -[Z.mul] in Hlt. lia.
Qed.

Lemma returned_miss_less_than_half_witness :
  Forall (fun s =>
            1 <= matchingCount ["chicken"; "garlic"] (recipe s)
            /\ 2 * missingIngredientsCount s < totalIngredients (recipe s))
         [score ["chicken"; "garlic"] chickenGarlic;
          score ["chicken"; "garlic"] garlicChicken].
Proof.
  apply (returned_miss_less_than_half ["chicken"; "garlic"] 10 sampleClient
           [FindMany (AND []) 1000]).
  reflexivity.
Defined.

Lemma filter_map_length {A B : Type} (g : A -> B) (f : B -> bool) (l : list A) :
  List.length (filter (fun x => f (g x)) l) = List.length (filter f (map g l)).
Proof.
  induction l as [|x l IH]; [reflexivity|].
  cbn [filter map]. destruct (f (g x)); cbn [List.length]; now rewrite IH.
Qed.

Lemma score_by_counts `{rt : Runtime} (a a' : list string) (r r' : Recipe) :
  matchingCount a r = matchingCount a' r' ->
  totalIngredients r = totalIngredients r' ->
  matchPercentage (score a r) = matchPercentage (score a' r')
  /\ missingIngredientsCount (score a r) = missingIngredientsCount (score a' r').
Proof.
  unfold score, matchingCount. cbn [matchPercentage missingIngredientsCount].
  now intros -> ->.
Qed.

Lemma findRecipes_by_counts `{rt : Runtime} (a a' : list string) (limit : Z) (db : PrismaClient) :
  List.length a = List.length a' ->
  (forall r, matchingCount a r = matchingCount a' r) ->
  findRecipesByAvailableIngredients a limit db
  = findRecipesByAvailableIngredients a' limit db.
Proof.
  intros Hlen Hcount. unfold findRecipesByAvailableIngredients. rewrite Hlen.
  destruct (Z.of_nat (List.length a') =? 0); [reflexivity|].
  unfold await. destruct (findMany (AND []) 1000 db) as [sent [e|recipes]];
    [reflexivity|].
  replace (scoredRecipes a recipes) with (scoredRecipes a' recipes); [reflexivity|].
  unfold scoredRecipes. apply map_ext. intros r.
  unfold score. fold (matchingCount a r). fold (matchingCount a' r).
  now rewrite Hcount.
Qed.

Lemma asciiLowerCase_occurrences (s : string) :
  occurrences JS.isCommaOrSemicolon (JS.asciiLowerCase s)
  = occurrences JS.isCommaOrSemicolon s.
Proof.
  induction s as [|c s IH]; [reflexivity|].
  cbn [JS.asciiLowerCase occurrences]. rewrite IH. f_equal.
  unfold JS.lowerChar.
  destruct ((65 <=? nat_of_ascii c) && (nat_of_ascii c <=? 90))%nat eqn:E;
    [|reflexivity].
  apply andb_true_iff in E. destruct E as [E1 E2].
  apply Nat.leb_le in E1. apply Nat.leb_le in E2.
  unfold JS.isCommaOrSemicolon. rewrite nat_ascii_embedding by lia.
  repeat match goal with
         | |- context [(?a =? ?b)%nat] => destruct (Nat.eqb_spec a b); try lia
         end; reflexivity.
Qed.

Lemma toLowerCase_by_ascii `{rt : Runtime} (s s' : string) :
  JS.asciiLowerCase s = JS.asciiLowerCase s' -> toLowerCase s = toLowerCase s'.
Proof.
  intros H. rewrite <- (toLowerCase_asciiLowerCase s), H.
  apply toLowerCase_asciiLowerCase.
Qed.

Lemma map_toLowerCase_by_ascii `{rt : Runtime} (a a' : list string) :
  map JS.asciiLowerCase a = map JS.asciiLowerCase a' ->
  map toLowerCase a = map toLowerCase a'.
Proof.
  revert a'. induction a as [|x a IH]; intros [|x' a'] H; try discriminate.
  - reflexivity.
  - cbn [map] in *. injection H as Hx Ha.
    now rewrite (toLowerCase_by_ascii x x' Hx), (IH a' Ha).
Qed.

(** X10: matching ignores the case of ASCII letters: two lists of
    available ingredients that agree once lower-cased give the same
    outcome, and two recipes whose ingredients agree once lower-cased get
    the same percentage and the same missing count. *)
Theorem letter_case_is_ignored `{rt : Runtime} (a a' : list string) (limit : Z)
    (db : PrismaClient) (r r' : Recipe) :
  map JS.asciiLowerCase a = map JS.asciiLowerCase a' ->
  JS.asciiLowerCase (ingredients r) = JS.asciiLowerCase (ingredients r') ->
  findRecipesByAvailableIngredients a limit db
  = findRecipesByAvailableIngredients a' limit db
  /\ matchPercentage (score a r) = matchPercentage (score a' r')
  /\ missingIngredientsCount (score a r) = missingIngredientsCount (score a' r').
Proof.
  intros Ha Hr.
  assert (Ha' : map toLowerCase a = map toLowerCase a')
    by now apply map_toLowerCase_by_ascii.
  assert (Hcount : forall x x', toLowerCase (ingredients x) = toLowerCase (ingredients x') ->
                                matchingCount a x = matchingCount a' x').
  { intros x x' Hx. unfold matchingCount, matchingIngredients, recipeIngredients.
    rewrite (filter_map_length toLowerCase
               (JS.includes (toLowerCase (ingredients x))) a).
    rewrite (filter_map_length toLowerCase
               (JS.includes (toLowerCase (ingredients x'))) a').
    now rewrite Ha', Hx. }
  split.
  - apply findRecipes_by_counts.
    + rewrite <- (length_map JS.asciiLowerCase a), Ha. apply length_map.
    + intros x. now apply Hcount.
  - apply score_by_counts; [now apply Hcount, toLowerCase_by_ascii|].
    pose proof (splitOn_length JS.isCommaOrSemicolon (ingredients r)) as H1.
    pose proof (splitOn_length JS.isCommaOrSemicolon (ingredients r')) as H2.
    unfold totalIngredients. rewrite H1, H2.
    rewrite <- (asciiLowerCase_occurrences (ingredients r)), Hr.
    now rewrite asciiLowerCase_occurrences.
Qed.

Lemma letter_case_is_ignored_witness :
  findRecipesByAvailableIngredients ["Chicken"; "GARLIC"] 10 sampleClient
  = findRecipesByAvailableIngredients ["chicken"; "garlic"] 10 sampleClient
  /\ matchPercentage (score ["Chicken"; "GARLIC"] chickenGarlic)
     = matchPercentage
         (score ["chicken"; "garlic"]
            {| id := 8; title := "Recipe"; category := None;
               ingredients := "Chicken, Garlic" |})
  /\ missingIngredientsCount (score ["Chicken"; "GARLIC"] chickenGarlic)
     = missingIngredientsCount
         (score ["chicken"; "garlic"]
            {| id := 8; title := "Recipe"; category := None;
               ingredients := "Chicken, Garlic" |}).
Proof.
  apply (letter_case_is_ignored ["Chicken"; "GARLIC"] ["chicken"; "garlic"] 10
           sampleClient chickenGarlic
           {| id := 8; title := "Recipe"; category := None; ingredients := "Chicken, Garlic" |});
    reflexivity.
Defined.

(** X11: the order of the available ingredients does not matter: a
    rearranged list gives the same outcome. *)
Theorem pantry_order_is_ignored `{rt : Runtime} (a a' : list string) (limit : Z) (db : PrismaClient) :
  Permutation a a' ->
  findRecipesByAvailableIngredients a limit db
  = findRecipesByAvailableIngredients a' limit db.
Proof.
  intros Hp. apply findRecipes_by_counts.
  - now apply Permutation_length.
  - intros r. unfold matchingCount, matchingIngredients. f_equal.
    induction Hp as [|x l l' Hp IH|x y l|l l' l'' Hp1 IH1 Hp2 IH2].
    + reflexivity.
    + cbn [filter]. destruct (JS.includes _ _); cbn [List.length]; now rewrite IH.
    + cbn [filter]. now destruct (JS.includes _ (toLowerCase y)),
        (JS.includes _ (toLowerCase x)).
    + now rewrite IH1.
Qed.

Lemma pantry_order_is_ignored_witness :
  findRecipesByAvailableIngredients ["garlic"; "chicken"] 10 sampleClient
  = findRecipesByAvailableIngredients ["chicken"; "garlic"] 10 sampleClient.
Proof.
  apply (pantry_order_is_ignored ["garlic"; "chicken"] ["chicken"; "garlic"] 10
           sampleClient).
  apply perm_swap.
Defined.

(** X12: entries are counted, not ingredients: an available ingredient
    listed twice counts twice, so repeating the whole list doubles every
    recipe's matching count and percentage; and the empty string, which
    occurs in every text, counts as a match for every recipe. *)
Theorem repeated_and_empty_entries_count `{rt : Runtime} (a : list string) (r : Recipe) :
  matchingCount (a ++ a) r = 2 * matchingCount a r
  /\ (matchPercentage (score (a ++ a) r) == 2 * matchPercentage (score a r))%Q
  /\ matchingCount ("" :: a) r = matchingCount a r + 1.
Proof.
  split; [rewrite matchingCount_app; lia|]. split.
  - rewrite !score_percentage, matchingCount_app.
    unfold Qeq, Qmult. cbn -[Z.mul Pos.mul]. lia.
  - unfold matchingCount, matchingIngredients. cbn [filter].
    rewrite (toLowerCase_ascii "" eq_refl). cbn [JS.asciiLowerCase].
    rewrite includes_empty. cbn [List.length]. lia.
Qed.

Lemma filter_Permutation {A : Type} (f : A -> bool) (l l' : list A) :
  Permutation l l' -> Permutation (filter f l) (filter f l').
Proof.
  induction 1 as [|x l l' Hp IH|x y l|l l' l'' Hp1 IH1 Hp2 IH2]; cbn [filter].
  - constructor.
  - destruct (f x); [now constructor | exact IH].
  - destruct (f x), (f y); try reflexivity. apply perm_swap.
  - now transitivity (filter f l').
Qed.

Lemma in_firstn_split {A : Type} (n : nat) (l : list A) (x : A) :
  In x (firstn n l) ->
  exists l1 l2, l = (l1 ++ x :: l2)%list /\ (List.length l1 < n)%nat.
Proof.
  revert n. induction l as [|y l IH]; intros [|n]; simpl; try tauto.
  intros [-> | H].
  - exists [], l. split; [reflexivity | simpl; lia].
  - destruct (IH n H) as [l1 [l2 [-> Hlen]]].
    exists (y :: l1), l2. split; [reflexivity | simpl; lia].
Qed.

Lemma sorted_tail_bound {A : Type} (R : A -> A -> Prop) (l1 l2 : list A) (x : A) :
  StronglySorted R (l1 ++ x :: l2) -> Forall (R x) l2.
Proof.
  induction l1 as [|y l1 IH]; simpl; intros H; inversion H; subst; auto.
Qed.

Lemma filter_everything {A : Type} (f : A -> bool) (l : list A) :
  (forall x, f x = true) -> filter f l = l.
Proof.
  intros H. induction l as [|x l IH]; [reflexivity|].
  cbn [filter]. now rewrite H, IH.
Qed.

(** X13: only the 1000 most recent rows are scored: for every recipe
    findRecipesByAvailableIngredients returns, fewer than 1000 rows of
    the table have a larger id. *)
Theorem only_recent_rows_are_scored `{rt : Runtime} (availableIngredients : list string) (limit : Z)
    (db : PrismaClient) (sent : list Query) (out : list ScoredRecipe) :
  findRecipesByAvailableIngredients availableIngredients limit db = (sent, inr out) ->
  Forall (fun s =>
            (List.length (filter (fun r => (id (recipe s) <? id r)%Z) (table db)) < 1000)%nat)
         out.
Proof.
  intros H. apply findRecipes_run in H. subst out.
  apply Forall_forall. intros s Hs. apply sortedRecipes_In in Hs.
  destruct Hs as [Hs _]. unfold scoredRecipes in Hs. apply in_map_iff in Hs.
  destruct Hs as [r [<- Hr]]. cbn [score recipe].
  rewrite (filter_everything (selects (AND []))) in Hr by reflexivity.
  unfold takeRows in Hr. cbn [Z.ltb Z.compare] in Hr.
  pose proof (orderByIdDesc_sorted (table db)) as Hsorted.
  assert (Hperm : Permutation (orderByIdDesc (table db)) (table db))
    by apply sort_Permutation.
  rewrite <- (Permutation_length
                (filter_Permutation (fun r0 => id r <? id r0) _ _ Hperm)).
  apply in_firstn_split in Hr. destruct Hr as [l1 [l2 [Heq Hlen]]].
  rewrite Heq in *. apply sorted_tail_bound in Hsorted.
  rewrite filter_app. cbn [filter]. rewrite Z.ltb_irrefl.
  replace (filter (fun r0 => id r <? id r0) l2) with (@nil Recipe).
  - rewrite app_nil_r.
    pose proof (filter_length_le (fun r0 => id r <? id r0) l1). simpl in Hlen. lia.
  - symmetry. clear Heq Hperm. induction Hsorted as [|y l2 Hy Hl2 IH]; [reflexivity|].
    cbn [filter]. replace (id r <? id y) with false by (symmetry; apply Z.ltb_ge; lia).
    exact IH.
Qed.

Lemma only_recent_rows_are_scored_witness :
  Forall (fun s =>
            (List.length (filter (fun r => (id (recipe s) <? id r)%Z) (table sampleClient))
             < 1000)%nat)
         [score ["chicken"; "garlic"] chickenGarlic;
          score ["chicken"; "garlic"] garlicChicken].
Proof.
  apply (only_recent_rows_are_scored ["chicken"; "garlic"] 10 sampleClient
           [FindMany (AND []) 1000]).
  reflexivity.
Defined.

(** ** serializeWithBigInt *)

Lemma Value_induction (P : Value -> Prop) :
  P Null -> P Undefined -> (forall b, P (Bool b)) -> (forall n, P (Num n)) ->
  (forall s, P (Str s)) -> (forall n, P (BigInt n)) ->
  (forall items, Forall P items -> P (Array items)) ->
  (forall properties,
      Forall (fun property => P (snd property)) properties -> P (Object properties)) ->
  forall v, P v.
Proof.
  intros HNull HUndefined HBool HNum HStr HBig HArray HObject.
  fix IH 1. intros [| |b|n|s|n|items|properties].
  - exact HNull.
  - exact HUndefined.
  - apply HBool.
  - apply HNum.
  - apply HStr.
  - apply HBig.
  - apply HArray. induction items as [|v items IHitems]; constructor;
      [apply IH | exact IHitems].
  - apply HObject. induction properties as [|[k v] properties IHp]; constructor;
      [apply IH | exact IHp].
Qed.

Lemma serialize_no_bigint (v : Value) : hasBigInt (serializeWithBigInt v) = false.
Proof.
  induction v as [| |b|n|s|n|items IH|properties IH] using Value_induction;
    try reflexivity.
  - cbn [serializeWithBigInt hasBigInt].
    induction IH as [|v items Hv _ IHitems]; [reflexivity|].
    cbn [map existsb]. now rewrite Hv, IHitems.
  - cbn [serializeWithBigInt hasBigInt].
    induction IH as [|[k v] properties Hv _ IHp]; [reflexivity|].
    cbn [map existsb fst snd] in *. now rewrite Hv, IHp.
Qed.

Lemma serialize_plain (w : Value) : hasBigInt w = false -> serializeWithBigInt w = w.
Proof.
  induction w as [| |b|n|s|n|items IH|properties IH] using Value_induction;
    try reflexivity.
  - discriminate.
  - cbn [serializeWithBigInt hasBigInt]. intros H. f_equal.
    induction IH as [|w items Hw _ IHitems]; [reflexivity|].
    cbn [map existsb] in *. apply orb_false_iff in H. destruct H as [H1 H2].
    now rewrite Hw, IHitems.
  - cbn [serializeWithBigInt hasBigInt]. intros H. f_equal.
    induction IH as [|[k w] properties Hw _ IHp]; [reflexivity|].
    cbn [map existsb fst snd] in *. apply orb_false_iff in H. destruct H as [H1 H2].
    now rewrite Hw, IHp.
Qed.

(** X14: the value serializeWithBigInt returns holds no bigint, at any
    depth of arrays and objects. *)
Theorem serialized_has_no_bigint (v : Value) :
  hasBigInt (serializeWithBigInt v) = false.
Proof. apply serialize_no_bigint. Qed.

(** X15: serializeWithBigInt returns a value without bigint as it is
    (same items, same properties in the same order); applied to its own
    result it therefore changes nothing. *)
Theorem serialize_keeps_plain_values (v : Value) :
  (hasBigInt v = false -> serializeWithBigInt v = v)
  /\ serializeWithBigInt (serializeWithBigInt v) = serializeWithBigInt v.
Proof.
  split; [apply serialize_plain|]. apply serialize_plain, serialize_no_bigint.
Qed.

Lemma serialize_keeps_plain_values_witness :
  (hasBigInt (Object [("id", Num (Finite 7)); ("tags", Array [Str "a"; Null])]) = false ->
   serializeWithBigInt (Object [("id", Num (Finite 7)); ("tags", Array [Str "a"; Null])])
   = Object [("id", Num (Finite 7)); ("tags", Array [Str "a"; Null])])
  /\ serializeWithBigInt
       (serializeWithBigInt
          (Object [("id", Num (Finite 7)); ("tags", Array [Str "a"; Null])]))
     = serializeWithBigInt
         (Object [("id", Num (Finite 7)); ("tags", Array [Str "a"; Null])]).
Proof.
  apply (serialize_keeps_plain_values
           (Object [("id", Num (Finite 7)); ("tags", Array [Str "a"; Null])])).
Defined.

(** ** The tool handlers *)

Lemma recipeValue_plain (r : Recipe) : serializeWithBigInt (recipeValue r) = recipeValue r.
Proof.
  apply serialize_plain. unfold recipeValue, recipeProperties.
  cbn. now destruct (category r).
Qed.

Lemma scoredRecipeValue_plain (s : ScoredRecipe) :
  serializeWithBigInt (scoredRecipeValue s) = scoredRecipeValue s.
Proof.
  apply serialize_plain. unfold scoredRecipeValue, recipeProperties.
  cbn. now destruct (category (recipe s)).
Qed.

Lemma serialize_array {A : Type} (encode : A -> Value) (l : list A) :
  (forall x, serializeWithBigInt (encode x) = encode x) ->
  serializeWithBigInt (Array (map encode l)) = Array (map encode l).
Proof.
  intros H. cbn [serializeWithBigInt]. f_equal. rewrite map_map.
  apply map_ext. exact H.
Qed.

(** X16: when the store answers, getRecipeByIdTool resolves, for an id
    some row has, to the object of a row of the table with that id, and
    rejects with the error "Recette avec l'ID ... non trouvée." when no
    row has the id. *)
Theorem getRecipeByIdTool_lookup (n : Z) (db : PrismaClient) :
  reachable db = true ->
  ((exists r, In r (table db) /\ id r = n) ->
   exists r, In r (table db) /\ id r = n
             /\ getRecipeByIdTool n db = ([FindUnique n], inr (recipeValue r)))
  /\ ((forall r, In r (table db) -> id r <> n) ->
      getRecipeByIdTool n db = ([FindUnique n], inl (JS.Error (notFoundMessageTool n)))).
Proof.
  intros Hup.
  assert (Hrun : getRecipeByIdTool n db
                 = match find (fun r => id r =? n) (table db) with
                   | Some r => ([FindUnique n], inr (recipeValue r))
                   | None => ([FindUnique n], inl (JS.Error (notFoundMessageTool n)))
                   end).
  { unfold getRecipeByIdTool, getRecipeById, await, findUnique, roundTrip, resolve, throw.
    rewrite Hup. destruct (find (fun r => id r =? n) (table db)) as [r|];
      [|reflexivity].
    cbn [app]. now rewrite recipeValue_plain. }
  rewrite Hrun. split.
  - intros [r [Hr Hid]].
    destruct (find (fun r => id r =? n) (table db)) as [r'|] eqn:E.
    + apply find_some in E. destruct E as [Hin Heq]. apply Z.eqb_eq in Heq.
      now exists r'.
    + exfalso. apply (find_none _ _ E) in Hr. apply Z.eqb_neq in Hr. contradiction.
  - intros Habsent. rewrite find_absent; [reflexivity|].
    intros r Hr. apply Z.eqb_neq. now apply Habsent.
Qed.

Lemma getRecipeByIdTool_lookup_witness :
  ((exists r, In r (table sampleClient) /\ id r = 7) ->
   exists r, In r (table sampleClient) /\ id r = 7
             /\ getRecipeByIdTool 7 sampleClient
                = ([FindUnique 7], inr (recipeValue r)))
  /\ ((forall r, In r (table sampleClient) -> id r <> 7) ->
      getRecipeByIdTool 7 sampleClient
      = ([FindUnique 7], inl (JS.Error (notFoundMessageTool 7)))).
Proof.
  apply (getRecipeByIdTool_lookup 7 sampleClient). reflexivity.
Defined.



(** X18: what findRecipesByAvailableIngredientsTool resolves to is the
    array of the scored recipes the function returns, each as its object
    with the two score properties; without a limit there are at most
    ten, and with an empty list of ingredients the array is empty and
    no query is sent. *)
Theorem findRecipesTool_result `{rt : Runtime} (ingredients : list string) (limit : option Z)
    (db : PrismaClient) (sent : list Query) (v : Value) :
  findRecipesByAvailableIngredientsTool ingredients limit db = (sent, inr v) ->
  exists recipes,
    findRecipesByAvailableIngredients ingredients (withDefault 10 limit) db
    = (sent, inr recipes)
    /\ v = Array (map scoredRecipeValue recipes)
    /\ (limit = None -> (List.length recipes <= 10)%nat)
    /\ (ingredients = [] -> sent = [] /\ v = Array []).
Proof.
  unfold findRecipesByAvailableIngredientsTool, await, resolve.
  destruct (findRecipesByAvailableIngredients ingredients (withDefault 10 limit) db)
    as [sent0 [e|recipes]] eqn:E; [discriminate|].
  rewrite app_nil_r, (serialize_array scoredRecipeValue recipes scoredRecipeValue_plain).
  intros H. inversion H; subst. exists recipes. repeat split.
  - intros ->. apply findRecipes_run in E. subst recipes.
    unfold sortedRecipes.
    pose proof (slice_from_0_length (withDefault 10 None)
                  (JS.sort (fun a b => (matchPercentage b - matchPercentage a)%Q)
                     (filter (fun s => negb (Qle_bool (matchPercentage s) 50))
                        (scoredRecipes ingredients
                           (takeRows 1000
                              (orderByIdDesc
                                 (filter (selects (AND [])) (table db)))))))) as Hlen.
    cbn [withDefault] in *. lia.
  - subst ingredients. unfold findRecipesByAvailableIngredients, resolve in E.
    cbn [List.length Z.of_nat Z.eqb] in E. now inversion E.
  - subst ingredients. unfold findRecipesByAvailableIngredients, resolve in E.
    cbn [List.length Z.of_nat Z.eqb] in E. now inversion E.
Qed.

Lemma findRecipesTool_result_witness :
  exists recipes,
    findRecipesByAvailableIngredients ["chicken"; "garlic"] (withDefault 10 None)
      sampleClient
    = ([FindMany (AND []) 1000], inr recipes)
    /\ Array [scoredRecipeValue (score ["chicken"; "garlic"] chickenGarlic);
              scoredRecipeValue (score ["chicken"; "garlic"] garlicChicken)]
       = Array (map scoredRecipeValue recipes)
    /\ (@None Z = None -> (List.length recipes <= 10)%nat)
    /\ (["chicken"; "garlic"] = [] ->
        [FindMany (AND []) 1000] = []
        /\ Array [scoredRecipeValue (score ["chicken"; "garlic"] chickenGarlic);
                  scoredRecipeValue (score ["chicken"; "garlic"] garlicChicken)]
           = Array []).
Proof.
  apply (findRecipesTool_result ["chicken"; "garlic"] None sampleClient). reflexivity.
Defined.

(** ** searchRecipes *)

Lemma truthy_nonempty (s : string) : truthy s = true <-> s <> "".
Proof. destruct s; simpl; split; congruence. Qed.

Lemma whenText_forallb (text : option string)
    (clause : string -> Search.RecipeWhereInput) (r : Search.Recipe) :
  forallb (fun c => Search.selects c r) (Search.whenText text clause) = true
  <-> (forall s, text = Some s -> s <> "" -> Search.selects (clause s) r = true).
Proof.
  unfold Search.whenText. destruct text as [s|].
  - destruct (truthy s) eqn:E.
    + cbn [forallb]. rewrite andb_true_r. apply truthy_nonempty in E. split.
      * intros H s' Hs' _. now injection Hs' as <-.
      * intros H. now apply H.
    + split; [|reflexivity]. intros _ s' Hs' Hne. injection Hs' as <-.
      apply truthy_nonempty in Hne. congruence.
  - split; [discriminate | reflexivity].
Qed.

Lemma selects_whereClause (options : Search.Options.RecipeSearchOptions)
    (r : Search.Recipe) :
  Search.selects (Search.whereClause options) r = true <-> Search.Satisfies options r.
Proof.
  unfold Search.whereClause, Search.Satisfies. cbn [Search.selects].
  rewrite !forallb_app, !andb_true_iff, !whenText_forallb.
  repeat apply and_iff_compat_l || apply and_iff_compat_r || idtac.
  assert (Hterm : forall s,
             Search.selects
               (Search.OR [Search.TitleContains s; Search.DescriptionContains s;
                           Search.IngredientsContains s]) r = true
             <-> Contains s (Search.title r)
                 \/ (exists d, Search.description r = Some d /\ Contains s d)
                 \/ Contains s (Search.ingredients r)).
  { intros s. cbn [Search.selects existsb].
    rewrite orb_false_r, !orb_true_iff, !contains_text, contains_Contains.
    reflexivity. }
  assert (Hing : forallb (fun c => Search.selects c r)
                   match Search.Options.ingredients options with
                   | Some l =>
                       if 0 <? Z.of_nat (List.length l)
                       then [Search.AND (map Search.IngredientsContains l)]
                       else []
                   | None => []
                   end = true
                 <-> (forall l i, Search.Options.ingredients options = Some l ->
                                  In i l -> Contains i (Search.ingredients r))).
  { destruct (Search.Options.ingredients options) as [l|].
    - destruct l as [|i0 l0].
      + cbn. split; [|reflexivity]. intros _ l i Hl. injection Hl as <-. intros [].
      + cbn [List.length]. rewrite Nat2Z.inj_succ.
        replace (0 <? Z.succ (Z.of_nat (List.length l0))) with true
          by (symmetry; apply Z.ltb_lt; lia).
        cbn [forallb Search.selects]. rewrite andb_true_r, forallb_forall. split.
        * intros H l i Hl Hi. injection Hl as <-.
          apply contains_text. apply (H (Search.IngredientsContains i)).
          now apply in_map.
        * intros H c Hc. apply in_map_iff in Hc. destruct Hc as [i [<- Hi]].
          apply contains_text. now apply (H (i0 :: l0)).
    - split; [discriminate | reflexivity]. }
  assert (Hrating : forallb (fun c => Search.selects c r)
                      match Search.Options.minRating options with
                      | Some q => [Search.RatingGte q]
                      | None => []
                      end = true
                    <-> (forall q, Search.Options.minRating options = Some q ->
                                   exists x, Search.rating r = Some x /\ (q <= x)%Q)).
  { destruct (Search.Options.minRating options) as [q|].
    - cbn [forallb Search.selects]. rewrite andb_true_r. unfold Search.ratingGte.
      destruct (Search.rating r) as [x|].
      + rewrite Qle_bool_iff. split.
        * intros H q' Hq'. injection Hq' as <-. now exists x.
        * intros H. destruct (H q eq_refl) as [x' [Hx' Hle]]. now injection Hx' as <-.
      + split; [discriminate|]. intros H. destruct (H q eq_refl) as [x [Hx _]].
        discriminate.
    - split; [discriminate | reflexivity]. }
  rewrite Hing, Hrating. cbn [Search.selects]. unfold Search.textLte.
  split.
  - intros [H1 [H2 [H3 [H4 [H5 [H6 H7]]]]]]. repeat split.
    + intros s Hs Hne. now apply Hterm, H1.
    + intros t Ht Hne. now apply contains_text, H2.
    + exact H3.
    + intros c Hc Hne. now apply contains_Contains, H4.
    + intros a Ha Hne. now apply contains_Contains, H5.
    + exact H6.
    + intros m Hm Hne. specialize (H7 m Hm Hne).
      destruct (Search.cookTime r) as [t|]; [now exists t | discriminate].
  - intros [H1 [H2 [H3 [H4 [H5 [H6 H7]]]]]]. repeat split.
    + intros s Hs Hne. now apply Hterm, H1.
    + intros t Ht Hne. now apply contains_text, H2.
    + exact H3.
    + intros c Hc Hne. now apply contains_Contains, H4.
    + intros a Ha Hne. now apply contains_Contains, H5.
    + exact H6.
    + intros m Hm Hne. destruct (H7 m Hm Hne) as [t [-> Hle]]. exact Hle.
Qed.

Lemma search_recipeValue_plain (r : Search.Recipe) :
  serializeWithBigInt (Search.recipeValue r) = Search.recipeValue r.
Proof.
  apply serialize_plain. unfold Search.recipeValue. cbn.
  now destruct (Search.category r), (Search.author r), (Search.description r),
    (Search.rating r), (Search.cookTime r).
Qed.

Lemma sort_by_Z_sorted {A : Type} (key : A -> Z) (l : list A) :
  StronglySorted (fun a b => key b <= key a)
    (JS.sort (fun a b => inject_Z (key b - key a)) l).
Proof.
  assert (Hle : forall x y, Qle_bool (inject_Z (key y - key x)) 0 = true ->
                            key y <= key x).
  { intros x y H. apply Qle_bool_iff in H. unfold Qle in H. simpl in H. lia. }
  assert (Hgt : forall x y, Qle_bool (inject_Z (key y - key x)) 0 = false ->
                            key x <= key y).
  { intros x y H. destruct (Z.le_gt_cases (key x) (key y)) as [|Hlt]; [assumption|].
    assert (Qle_bool (inject_Z (key y - key x)) 0 = true); [|congruence].
    apply Qle_bool_iff. unfold Qle. simpl. lia. }
  induction l as [|x l IH]; simpl; [constructor|].
  revert IH. generalize (JS.sort (fun a b => inject_Z (key b - key a)) l).
  intros l' Hl. induction Hl as [|z l' Hl IH Hz]; simpl.
  - repeat constructor.
  - destruct (Qle_bool (inject_Z (key z - key x)) 0) eqn:E.
    + apply Hle in E. constructor; [now constructor|]. constructor; [exact E|].
      rewrite Forall_forall in *. intros y Hy. specialize (Hz y Hy). lia.
    + apply Hgt in E. constructor; [exact IH|].
      rewrite Forall_forall in *. intros y Hy.
      apply insertSorted_In in Hy. destruct Hy as [->|Hy]; auto.
Qed.

Lemma StronglySorted_snoc {A : Type} (R : A -> A -> Prop) (l : list A) (x : A) :
  StronglySorted R l -> Forall (fun y => R y x) l -> StronglySorted R (l ++ [x]).
Proof.
  induction 1 as [|y l Hl IH Hy]; intros Hx; simpl.
  - repeat constructor.
  - inversion Hx; subst. constructor; [now apply IH|].
    apply Forall_app. split; [exact Hy | now repeat constructor].
Qed.

Lemma StronglySorted_rev {A : Type} (R : A -> A -> Prop) (l : list A) :
  StronglySorted R l -> StronglySorted (fun a b => R b a) (rev l).
Proof.
  induction 1 as [|x l Hl IH Hx]; simpl; [constructor|].
  apply StronglySorted_snoc; [exact IH|].
  apply Forall_forall. intros y Hy. apply in_rev in Hy.
  rewrite Forall_forall in Hx. now apply Hx.
Qed.

Lemma window_incl (take skip : Z) (rows : list Search.Recipe) (r : Search.Recipe) :
  In r (Search.window take skip rows) -> In r rows.
Proof.
  unfold Search.window. destruct (take <? 0); intros H.
  - apply in_rev in H. apply firstn_incl, skipn_incl in H. now apply in_rev.
  - now apply firstn_incl, skipn_incl in H.
Qed.

Lemma window_sorted (R : Search.Recipe -> Search.Recipe -> Prop) (take skip : Z)
    (rows : list Search.Recipe) :
  StronglySorted R rows -> StronglySorted R (Search.window take skip rows).
Proof.
  intros H. unfold Search.window. destruct (take <? 0).
  - apply (StronglySorted_rev (fun a b => R b a)).
    now apply firstn_StronglySorted, skipn_StronglySorted, StronglySorted_rev.
  - now apply firstn_StronglySorted, skipn_StronglySorted.
Qed.

Lemma searchRecipes_run (options : Search.Options.RecipeSearchOptions)
    (db : Search.PrismaClient) :
  Search.reachable db = true ->
  0 <= withDefault 0 (Search.Options.offset options) ->
  Search.searchRecipes options db
  = ([Search.FindMany (Search.whereClause options)
        (withDefault 10 (Search.Options.limit options))
        (withDefault 0 (Search.Options.offset options));
      Search.Count (Search.whereClause options)],
     inr {| Search.data :=
              Array (map Search.recipeValue
                       (Search.window (withDefault 10 (Search.Options.limit options))
                          (withDefault 0 (Search.Options.offset options))
                          (Search.orderByIdDesc
                             (filter (Search.selects (Search.whereClause options))
                                (Search.table db)))));
            Search.total :=
              Z.of_nat (List.length (filter (Search.selects (Search.whereClause options))
                                       (Search.table db)));
            Search.page :=
              plus (floor (divide (withDefault 0 (Search.Options.offset options))
                             (withDefault 10 (Search.Options.limit options)))) 1;
            Search.pageSize := withDefault 10 (Search.Options.limit options);
            Search.totalPages :=
              ceil (divide
                      (Z.of_nat (List.length
                                   (filter (Search.selects (Search.whereClause options))
                                      (Search.table db))))
                      (withDefault 10 (Search.Options.limit options))) |}).
Proof.
  intros Hup Hoff.
  unfold Search.searchRecipes, Search.await, Search.findMany, Search.count,
    Search.resolve.
  rewrite Hup. replace (0 <=? withDefault 0 (Search.Options.offset options)) with true
    by (symmetry; now apply Z.leb_le).
  cbn [andb app].
  now rewrite (serialize_array Search.recipeValue _ search_recipeValue_plain).
Qed.

Lemma searchRecipes_resolved (options : Search.Options.RecipeSearchOptions)
    (db : Search.PrismaClient) (sent : list Search.Query) (res : Search.PaginatedResult) :
  Search.searchRecipes options db = (sent, inr res) ->
  Search.reachable db = true /\ 0 <= withDefault 0 (Search.Options.offset options).
Proof.
  unfold Search.searchRecipes, Search.await, Search.findMany.
  destruct (Search.reachable db); [|discriminate].
  destruct (Z.leb_spec 0 (withDefault 0 (Search.Options.offset options)));
    [now split | discriminate].
Qed.

(** X19: every row in the data searchRecipes returns is a row of the
    table that satisfies all the options given: its title, description
    or ingredients contains the search term, the title, category and
    author columns contain their filters, its ingredients contain every
    listed ingredient, its rating reaches the minimum and its cooking
    time does not exceed the maximum. A column contains a text as LIKE
    tells on SQLite: the case of the letters A to Z is ignored, and in
    the text given % stands for any run of characters and _ for any one
    character. The rows come by decreasing id. *)
Theorem search_results_satisfy_options (options : Search.Options.RecipeSearchOptions)
    (db : Search.PrismaClient) (sent : list Search.Query) (res : Search.PaginatedResult) :
  Search.searchRecipes options db = (sent, inr res) ->
  exists rows,
    Search.data res = Array (map Search.recipeValue rows)
    /\ Forall (fun r => In r (Search.table db) /\ Search.Satisfies options r) rows
    /\ StronglySorted (fun a b => Search.id b <= Search.id a) rows.
Proof.
  intros H. destruct (searchRecipes_resolved _ _ _ _ H) as [Hup Hoff].
  rewrite (searchRecipes_run options db Hup Hoff) in H. inversion H; subst.
  eexists. split; [reflexivity|]. split.
  - apply Forall_forall. intros r Hr.
    apply window_incl, sort_In, filter_In in Hr. destruct Hr as [Hin Hsel].
    split; [exact Hin | now apply selects_whereClause].
  - apply window_sorted. apply (sort_by_Z_sorted Search.id).
Qed.

Lemma search_results_satisfy_options_witness :
  exists rows,
    Array [Search.recipeValue beefStew; Search.recipeValue tomatoPasta]
    = Array (map Search.recipeValue rows)
    /\ Forall (fun r => In r (Search.table cookbook) /\ Search.Satisfies withGarlic r) rows
    /\ StronglySorted (fun a b => Search.id b <= Search.id a) rows.
Proof.
  apply (search_results_satisfy_options withGarlic cookbook
           [Search.FindMany (Search.whereClause withGarlic) 10 0;
            Search.Count (Search.whereClause withGarlic)]
           {| Search.data := Array [Search.recipeValue beefStew;
                                    Search.recipeValue tomatoPasta];
              Search.total := 2;
              Search.page := Finite (inject_Z 0 + inject_Z 1);
              Search.pageSize := 10;
              Search.totalPages := Finite (inject_Z 1) |}).
  reflexivity.
Defined.

Lemma window_all (take : Z) (rows : list Search.Recipe) :
  Z.of_nat (List.length rows) <= take -> Search.window take 0 rows = rows.
Proof.
  intros H. unfold Search.window.
  replace (take <? 0) with false by (symmetry; apply Z.ltb_ge; lia).
  cbn [Z.to_nat skipn]. apply firstn_all2. lia.
Qed.

(** X20: with offset 0 and a limit of at least the size of the table,
    every row of the table that satisfies the options is in the data
    searchRecipes returns. *)
Theorem search_results_are_complete (options : Search.Options.RecipeSearchOptions)
    (db : Search.PrismaClient) (sent : list Search.Query) (res : Search.PaginatedResult)
    (r : Search.Recipe) :
  Search.searchRecipes options db = (sent, inr res) ->
  withDefault 0 (Search.Options.offset options) = 0 ->
  Z.of_nat (List.length (Search.table db)) <= withDefault 10 (Search.Options.limit options) ->
  In r (Search.table db) ->
  Search.Satisfies options r ->
  exists rows, Search.data res = Array (map Search.recipeValue rows) /\ In r rows.
Proof.
  intros H Hoff Hlimit Hr Hsat.
  destruct (searchRecipes_resolved _ _ _ _ H) as [Hup Hoff'].
  rewrite (searchRecipes_run options db Hup Hoff') in H. inversion H; subst.
  eexists. split; [reflexivity|]. cbn [Search.data].
  rewrite Hoff, window_all.
  - apply sort_In, filter_In. split; [exact Hr | now apply selects_whereClause].
  - unfold Search.orderByIdDesc. rewrite sort_length.
    apply Z.le_trans with (Z.of_nat (List.length (Search.table db)));
      [apply inj_le, filter_length_le | exact Hlimit].
Qed.

Lemma withGarlic_tomatoPasta : Search.Satisfies withGarlic tomatoPasta.
Proof. apply selects_whereClause. reflexivity. Defined.

Lemma search_results_are_complete_witness :
  exists rows,
    Array [Search.recipeValue beefStew; Search.recipeValue tomatoPasta]
    = Array (map Search.recipeValue rows)
    /\ In tomatoPasta rows.
Proof.
  apply (search_results_are_complete withGarlic cookbook
           [Search.FindMany (Search.whereClause withGarlic) 10 0;
            Search.Count (Search.whereClause withGarlic)]
           {| Search.data := Array [Search.recipeValue beefStew;
                                    Search.recipeValue tomatoPasta];
              Search.total := 2;
              Search.page := Finite (inject_Z 0 + inject_Z 1);
              Search.pageSize := 10;
              Search.totalPages := Finite (inject_Z 1) |} tomatoPasta).
  - reflexivity.
  - reflexivity.
  - simpl. lia.
  - simpl. tauto.
  - exact withGarlic_tomatoPasta.
Defined.

Lemma window_length (take skip : Z) (rows : list Search.Recipe) :
  0 <= take -> 0 <= skip ->
  Z.of_nat (List.length (Search.window take skip rows))
  = Z.min take (Z.max (Z.of_nat (List.length rows) - skip) 0).
Proof.
  intros Ht Hs. unfold Search.window.
  replace (take <? 0) with false by (symmetry; apply Z.ltb_ge; lia).
  rewrite length_firstn, length_skipn. lia.
Qed.

(** X21: the total searchRecipes returns counts the rows of the whole
    table that the filter selects, whatever limit and offset are; for a
    limit that is not negative the data holds
    min(limit, max(total - offset, 0)) rows. *)
Theorem search_total_and_page_length (options : Search.Options.RecipeSearchOptions)
    (db : Search.PrismaClient) (sent : list Search.Query) (res : Search.PaginatedResult) :
  Search.searchRecipes options db = (sent, inr res) ->
  0 <= withDefault 10 (Search.Options.limit options) ->
  exists rows,
    Search.data res = Array (map Search.recipeValue rows)
    /\ Search.total res
       = Z.of_nat (List.length (filter (Search.selects (Search.whereClause options))
                                  (Search.table db)))
    /\ Z.of_nat (List.length rows)
       = Z.min (withDefault 10 (Search.Options.limit options))
           (Z.max (Search.total res - withDefault 0 (Search.Options.offset options)) 0).
Proof.
  intros H Hlimit.
  destruct (searchRecipes_resolved _ _ _ _ H) as [Hup Hoff].
  rewrite (searchRecipes_run options db Hup Hoff) in H. inversion H; subst.
  eexists. split; [reflexivity|]. split; [reflexivity|]. cbn [Search.total].
  rewrite window_length by assumption.
  unfold Search.orderByIdDesc. now rewrite sort_length.
Qed.

Lemma search_total_and_page_length_witness :
  exists rows,
    Array [Search.recipeValue beefStew; Search.recipeValue tomatoPasta]
    = Array (map Search.recipeValue rows)
    /\ 2 = Z.of_nat (List.length (filter (Search.selects (Search.whereClause withGarlic))
                                    (Search.table cookbook)))
    /\ Z.of_nat (List.length rows)
       = Z.min (withDefault 10 (Search.Options.limit withGarlic))
           (Z.max (2 - withDefault 0 (Search.Options.offset withGarlic)) 0).
Proof.
  apply (search_total_and_page_length withGarlic cookbook
           [Search.FindMany (Search.whereClause withGarlic) 10 0;
            Search.Count (Search.whereClause withGarlic)]
           {| Search.data := Array [Search.recipeValue beefStew;
                                    Search.recipeValue tomatoPasta];
              Search.total := 2;
              Search.page := Finite (inject_Z 0 + inject_Z 1);
              Search.pageSize := 10;
              Search.totalPages := Finite (inject_Z 1) |}).
  - reflexivity.
  - simpl. lia.
Defined.

Lemma floor_divide (a b : Z) :
  b <> 0 -> floor (divide a b) = Finite (inject_Z (a / b)).
Proof.
  intros Hb. unfold divide. replace (b =? 0) with false by (symmetry; now apply Z.eqb_neq).
  cbn [floor]. now rewrite <- Zdiv_Qdiv.
Qed.

Lemma ceil_divide (a b : Z) :
  b <> 0 -> ceil (divide a b) = Finite (inject_Z (- ((- a) / b))).
Proof.
  intros Hb. unfold divide. replace (b =? 0) with false by (symmetry; now apply Z.eqb_neq).
  cbn [ceil]. unfold Qceiling. do 3 f_equal.
  rewrite (Zdiv_Qdiv (- a) b). apply Qfloor_comp.
  destruct b as [|b|b]; [congruence| |];
    unfold Qeq, Qdiv, Qmult, Qinv, Qopp, inject_Z; cbn -[Z.mul Pos.mul]; lia.
Qed.

(** X22: for a positive limit, the page searchRecipes returns is the
    integer p with (p - 1) * limit <= offset < p * limit, the number of
    pages is the integer n with (n - 1) * limit < total <= n * limit,
    and the page size is the limit. *)
Theorem search_pagination (options : Search.Options.RecipeSearchOptions)
    (db : Search.PrismaClient) (sent : list Search.Query) (res : Search.PaginatedResult) :
  Search.searchRecipes options db = (sent, inr res) ->
  0 < withDefault 10 (Search.Options.limit options) ->
  let limit := withDefault 10 (Search.Options.limit options) in
  let offset := withDefault 0 (Search.Options.offset options) in
  exists p n q,
    Search.page res = Finite q /\ (q == inject_Z p)%Q
    /\ (p - 1) * limit <= offset < p * limit
    /\ Search.totalPages res = Finite (inject_Z n)
    /\ (n - 1) * limit < Search.total res <= n * limit
    /\ Search.pageSize res = limit.
Proof.
  intros H Hlimit limit offset.
  destruct (searchRecipes_resolved _ _ _ _ H) as [Hup Hoff].
  rewrite (searchRecipes_run options db Hup Hoff) in H. inversion H; subst.
  cbn [Search.page Search.totalPages Search.total Search.pageSize].
  fold limit offset. set (total := Z.of_nat _).
  rewrite floor_divide, ceil_divide by lia. cbn [plus].
  exists (offset / limit + 1), (- ((- total) / limit)),
    (inject_Z (offset / limit) + inject_Z 1)%Q.
  split; [reflexivity|]. split.
  { unfold Qeq, Qplus, inject_Z. cbn. lia. }
  pose proof (Z.div_mod offset limit) as H1.
  pose proof (Z.mod_pos_bound offset limit) as H2.
  pose proof (Z.div_mod (- total) limit) as H3.
  pose proof (Z.mod_pos_bound (- total) limit) as H4.
  repeat split; try reflexivity; nia.
Qed.

Lemma search_pagination_witness :
  exists p n q,
    Finite (inject_Z 0 + inject_Z 1) = Finite q /\ (q == inject_Z p)%Q
    /\ (p - 1) * withDefault 10 (Search.Options.limit withGarlic)
       <= withDefault 0 (Search.Options.offset withGarlic)
       < p * withDefault 10 (Search.Options.limit withGarlic)
    /\ Finite (inject_Z 1) = Finite (inject_Z n)
    /\ (n - 1) * withDefault 10 (Search.Options.limit withGarlic)
       < 2 <= n * withDefault 10 (Search.Options.limit withGarlic)
    /\ 10 = withDefault 10 (Search.Options.limit withGarlic).
Proof.
  apply (search_pagination withGarlic cookbook
           [Search.FindMany (Search.whereClause withGarlic) 10 0;
            Search.Count (Search.whereClause withGarlic)]
           {| Search.data := Array [Search.recipeValue beefStew;
                                    Search.recipeValue tomatoPasta];
              Search.total := 2;
              Search.page := Finite (inject_Z 0 + inject_Z 1);
              Search.pageSize := 10;
              Search.totalPages := Finite (inject_Z 1) |}).
  - reflexivity.
  - simpl. lia.
Defined.

(** X23: with limit 0 searchRecipes returns no row, and its page and
    number of pages are not finite: NaN when the offset, respectively
    the total, is 0 and Infinity otherwise. The handler of searchRecipesTool
    never passes 0: a limit of 0 is replaced by 10 as an absent one is. *)
Theorem search_with_zero_limit (options : Search.Options.RecipeSearchOptions)
    (db : Search.PrismaClient) :
  Search.reachable db = true ->
  Search.Options.limit options = Some 0 ->
  0 <= withDefault 0 (Search.Options.offset options) ->
  (exists res,
      snd (Search.searchRecipes options db) = inr res
      /\ Search.data res = Array []
      /\ Search.page res
         = (if withDefault 0 (Search.Options.offset options) =? 0 then NaN
            else PosInfinity)
      /\ Search.totalPages res = (if Search.total res =? 0 then NaN else PosInfinity))
  /\ (forall query offset category ingredient,
         Search.searchRecipesTool query (Some 0) offset category ingredient
         = Search.searchRecipesTool query None offset category ingredient).
Proof.
  intros Hup Hlimit Hoff. split; [|reflexivity].
  rewrite (searchRecipes_run options db Hup Hoff). rewrite Hlimit.
  cbn [withDefault snd]. eexists. split; [reflexivity|].
  cbn [Search.data Search.page Search.totalPages Search.total].
  split; [reflexivity|]. unfold divide. cbn [Z.eqb].
  split.
  - destruct (Z.eqb_spec (withDefault 0 (Search.Options.offset options)) 0);
      [reflexivity|].
    replace (0 <? withDefault 0 (Search.Options.offset options)) with true
      by (symmetry; apply Z.ltb_lt; lia).
    reflexivity.
  - set (total := Z.of_nat _). destruct (Z.eqb_spec total 0); [reflexivity|].
    replace (0 <? total) with true by (symmetry; apply Z.ltb_lt; unfold total; lia).
    reflexivity.
Qed.

Lemma search_with_zero_limit_witness :
  (exists res,
      snd (Search.searchRecipes (pagedOptions withGarlic 0 0) cookbook) = inr res
      /\ Search.data res = Array []
      /\ Search.page res
         = (if withDefault 0 (Search.Options.offset (pagedOptions withGarlic 0 0)) =? 0
            then NaN else PosInfinity)
      /\ Search.totalPages res = (if Search.total res =? 0 then NaN else PosInfinity))
  /\ (forall query offset category ingredient,
         Search.searchRecipesTool query (Some 0) offset category ingredient
         = Search.searchRecipesTool query None offset category ingredient).
Proof.
  apply (search_with_zero_limit (pagedOptions withGarlic 0 0) cookbook);
    [reflexivity | reflexivity | simpl; lia].
Defined.

Lemma firstn_sum {A : Type} (a b : nat) (l : list A) :
  firstn (a + b) l = (firstn a l ++ firstn b (skipn a l))%list.
Proof.
  revert l. induction a as [|a IH]; intros [|x l]; simpl; try reflexivity.
  - now rewrite firstn_nil.
  - now rewrite IH.
Qed.

(** X24: consecutive pages fit together: for limits and an offset that
    are not negative, the rows of the page of limit rows at offset,
    followed by the rows of the page of limit' rows at offset + limit,
    are the rows of the page of limit + limit' rows at offset. *)
Theorem consecutive_pages_concatenate (options : Search.Options.RecipeSearchOptions)
    (db : Search.PrismaClient) (limit limit' offset : Z) :
  Search.reachable db = true ->
  0 <= limit -> 0 <= limit' -> 0 <= offset ->
  exists rows rows' first second both,
    snd (Search.searchRecipes (pagedOptions options limit offset) db) = inr first
    /\ snd (Search.searchRecipes (pagedOptions options limit' (offset + limit)) db)
       = inr second
    /\ snd (Search.searchRecipes (pagedOptions options (limit + limit') offset) db)
       = inr both
    /\ Search.data first = Array (map Search.recipeValue rows)
    /\ Search.data second = Array (map Search.recipeValue rows')
    /\ Search.data both = Array (map Search.recipeValue (rows ++ rows')).
Proof.
  intros Hup Hl Hl' Ho.
  rewrite (searchRecipes_run (pagedOptions options limit offset) db Hup)
    by (cbn; lia).
  rewrite (searchRecipes_run (pagedOptions options limit' (offset + limit)) db Hup)
    by (cbn; lia).
  rewrite (searchRecipes_run (pagedOptions options (limit + limit') offset) db Hup)
    by (cbn; lia).
  cbn [snd]. do 5 eexists.
  split; [reflexivity|]. split; [reflexivity|]. split; [reflexivity|].
  cbn [Search.data]. split; [reflexivity|]. split; [reflexivity|].
  do 2 f_equal. cbn [withDefault pagedOptions Search.Options.limit Search.Options.offset].
  change (Search.whereClause (pagedOptions options limit' (offset + limit)))
    with (Search.whereClause (pagedOptions options limit offset)).
  change (Search.whereClause (pagedOptions options (limit + limit') offset))
    with (Search.whereClause (pagedOptions options limit offset)).
  set (matching := Search.orderByIdDesc _).
  unfold Search.window.
  replace (limit <? 0) with false by (symmetry; apply Z.ltb_ge; lia).
  replace (limit' <? 0) with false by (symmetry; apply Z.ltb_ge; lia).
  replace (limit + limit' <? 0) with false by (symmetry; apply Z.ltb_ge; lia).
  rewrite Z2Nat.inj_add by lia. rewrite firstn_sum. f_equal. f_equal.
  rewrite skipn_skipn. f_equal. lia.
Qed.

Lemma consecutive_pages_concatenate_witness :
  exists rows rows' first second both,
    snd (Search.searchRecipes (pagedOptions withGarlic 1 0) cookbook) = inr first
    /\ snd (Search.searchRecipes (pagedOptions withGarlic 1 (0 + 1)) cookbook)
       = inr second
    /\ snd (Search.searchRecipes (pagedOptions withGarlic (1 + 1) 0) cookbook)
       = inr both
    /\ Search.data first = Array (map Search.recipeValue rows)
    /\ Search.data second = Array (map Search.recipeValue rows')
    /\ Search.data both = Array (map Search.recipeValue (rows ++ rows')).
Proof.
  apply (consecutive_pages_concatenate withGarlic cookbook 1 1 0);
    [reflexivity | lia | lia | lia].
Defined.

(** X25: an empty search string filters nothing: searchRecipesByTitle,
    searchRecipesByCategory and searchRecipesByIngredient called with ""
    all return the page of the whole table, most recent first, with the
    size of the table as total. *)
Theorem empty_string_selects_every_row (db : Search.PrismaClient) (limit offset : option Z) :
  Search.reachable db = true ->
  0 <= withDefault 0 offset ->
  let everything :=
    Array (map Search.recipeValue
             (Search.window (withDefault 10 limit) (withDefault 0 offset)
                (Search.orderByIdDesc (Search.table db)))) in
  let size := Z.of_nat (List.length (Search.table db)) in
  (exists res, snd (Search.searchRecipesByTitle "" limit offset db) = inr res
               /\ Search.data res = everything /\ Search.total res = size)
  /\ (exists res, snd (Search.searchRecipesByCategory "" limit offset db) = inr res
                  /\ Search.data res = everything /\ Search.total res = size)
  /\ (exists res, snd (Search.searchRecipesByIngredient "" limit offset db) = inr res
                  /\ Search.data res = everything /\ Search.total res = size).
Proof.
  intros Hup Hoff everything size.
  unfold Search.searchRecipesByTitle, Search.searchRecipesByCategory,
    Search.searchRecipesByIngredient.
  rewrite !(searchRecipes_run _ db Hup) by exact Hoff.
  cbn [snd withDefault Search.Options.limit Search.Options.offset].
  assert (Hall : forall w, (forall r, Search.selects w r = true) ->
                           filter (Search.selects w) (Search.table db) = Search.table db).
  { intros w Hw. now apply filter_everything. }
  repeat split; eexists; (split; [reflexivity|]);
    cbn [Search.data Search.total]; rewrite Hall; try (split; reflexivity);
    intros r; cbn -[contains]; try reflexivity.
  now rewrite contains_empty.
Qed.

Lemma empty_string_selects_every_row_witness :
  (exists res, snd (Search.searchRecipesByTitle "" None None cookbook) = inr res
               /\ Search.data res
                  = Array (map Search.recipeValue [beefStew; greenSalad; tomatoPasta])
               /\ Search.total res = 3)
  /\ (exists res, snd (Search.searchRecipesByCategory "" None None cookbook) = inr res
                  /\ Search.data res
                     = Array (map Search.recipeValue [beefStew; greenSalad; tomatoPasta])
                  /\ Search.total res = 3)
  /\ (exists res, snd (Search.searchRecipesByIngredient "" None None cookbook) = inr res
                  /\ Search.data res
                     = Array (map Search.recipeValue [beefStew; greenSalad; tomatoPasta])
                  /\ Search.total res = 3).
Proof.
  apply (empty_string_selects_every_row cookbook None None); [reflexivity | simpl; lia].
Defined.

(** X26: the handler of searchRecipesByIngredientTool, which queries the
    client itself, and searchRecipesByIngredient, which goes through
    searchRecipes, settle in the same way: the same page, total, page
    numbers, or the same error. *)
Theorem ingredient_tool_agrees_with_function (ingredient : string)
    (limit offset : option Z) (db : Search.PrismaClient) :
  snd (Search.searchRecipesByIngredientTool ingredient limit offset db)
  = snd (Search.searchRecipesByIngredient ingredient limit offset db).
Proof.
  unfold Search.searchRecipesByIngredientTool, Search.searchRecipesByIngredient,
    Search.searchRecipes.
  cbn [withDefault Search.Options.limit Search.Options.offset].
  assert (Hsame : filter (Search.selects
                            (Search.whereClause
                               {| Search.Options.title := None;
                                  Search.Options.ingredients := Some [ingredient];
                                  Search.Options.category := None;
                                  Search.Options.author := None;
                                  Search.Options.minRating := None;
                                  Search.Options.maxCookTime := None;
                                  Search.Options.searchTerm := None;
                                  Search.Options.limit := Some (withDefault 10 limit);
                                  Search.Options.offset := Some (withDefault 0 offset) |}))
                    (Search.table db)
                  = filter (Search.selects
                              (Search.AND [Search.IngredientsContains ingredient]))
                      (Search.table db)).
  { apply filter_ext. intros r. cbn. now rewrite !andb_true_r. }
  unfold Search.await, Search.findMany, Search.count, Search.resolve.
  rewrite Hsame.
  destruct (Search.reachable db && (0 <=? withDefault 0 offset)) eqn:E;
    [|reflexivity].
  destruct (Search.reachable db); [|discriminate]. reflexivity.
Qed.

(** X27: when the database does not answer, or when the offset is
    negative, searchRecipes rejects with the error of the client after
    the query for the rows; the count is not sent. *)
Theorem search_failure_is_propagated (options : Search.Options.RecipeSearchOptions)
    (db : Search.PrismaClient) :
  Search.reachable db = false \/ withDefault 0 (Search.Options.offset options) < 0 ->
  Search.searchRecipes options db
  = ([Search.FindMany (Search.whereClause options)
        (withDefault 10 (Search.Options.limit options))
        (withDefault 0 (Search.Options.offset options))],
     inl JS.PrismaClientError).
Proof.
  intros H. unfold Search.searchRecipes, Search.await, Search.findMany.
  replace (Search.reachable db && (0 <=? withDefault 0 (Search.Options.offset options)))
    with false; [reflexivity|].
  symmetry. apply andb_false_iff. destruct H as [H|H]; [now left|].
  right. apply Z.leb_gt. exact H.
Qed.

Lemma search_failure_is_propagated_witness :
  Search.searchRecipes (pagedOptions withGarlic 10 (-1)) cookbook
  = ([Search.FindMany (Search.whereClause (pagedOptions withGarlic 10 (-1))) 10 (-1)],
     inl JS.PrismaClientError).
Proof.
  apply (search_failure_is_propagated (pagedOptions withGarlic 10 (-1)) cookbook).
  right. simpl. lia.
Defined.

(** ** getAvailableCategories *)







(** ** parseCSVLine *)

Lemma stripQuotes_without_quote (value : string) :
  occurrences Csv.isQuote value = 0 -> Csv.stripQuotes value = value.
Proof.
  intros H. unfold Csv.stripQuotes.
  destruct value as [|c value]; [reflexivity|].
  cbn [Csv.startsWithQuote]. cbn [occurrences] in H.
  pose proof (occurrences_nonneg Csv.isQuote value).
  destruct (Csv.isQuote c); [lia | reflexivity].
Qed.

Lemma scan_clean (line : string) (inQuotes : bool) (current : string)
    (result : list string) :
  occurrences Csv.isQuote current = 0 ->
  Forall (fun field => occurrences Csv.isQuote field = 0 /\ JS.trim field = field) result ->
  Forall (fun field => occurrences Csv.isQuote field = 0 /\ JS.trim field = field)
         (Csv.scan line inQuotes current result).
Proof.
  revert inQuotes current result.
  induction line as [|char rest IH]; intros inQuotes current result Hc Hr;
    cbn [Csv.scan].
  - apply Forall_app. split; [exact Hr|]. constructor; [|constructor].
    split; [now apply trim_occurrences | apply trim_idempotent].
  - destruct (Csv.isQuote char) eqn:Hq; [now apply IH|].
    destruct (Csv.isComma char && negb inQuotes).
    + apply IH; [reflexivity|]. apply Forall_app. split; [exact Hr|].
      constructor; [|constructor].
      split; [now apply trim_occurrences | apply trim_idempotent].
    + apply IH; [|exact Hr]. rewrite occurrences_app. cbn [occurrences].
      rewrite Hq. lia.
Qed.

Lemma scan_from_start_clean (line : string) :
  Forall (fun field => occurrences Csv.isQuote field = 0 /\ JS.trim field = field)
         (Csv.scan line false "" []).
Proof. apply scan_clean; [reflexivity | constructor]. Qed.

Lemma parseCSVLine_scan (line : string) :
  Csv.parseCSVLine line = Csv.scan line false "" [].
Proof.
  unfold Csv.parseCSVLine.
  induction (scan_from_start_clean line) as [|f l [Hf _] _ IH]; [reflexivity|].
  cbn [map]. now rewrite stripQuotes_without_quote, IH.
Qed.

(** X29: the fields parseCSVLine returns hold no double quote and no
    white space at either end: the quotes of the line only switch the
    quoted state and are never copied, so the last step, which would
    remove a pair of enclosing quotes, leaves every field as it is. *)
Theorem parseCSVLine_fields_are_clean (line : string) :
  Forall (fun field => occurrences Csv.isQuote field = 0 /\ JS.trim field = field)
         (Csv.parseCSVLine line)
  /\ Csv.parseCSVLine line = Csv.scan line false "" [].
Proof.
  split; [|apply parseCSVLine_scan].
  rewrite parseCSVLine_scan. apply scan_from_start_clean.
Qed.

Lemma scan_unquoted (line current : string) (result : list string) :
  occurrences Csv.isQuote line = 0 ->
  Csv.scan line false current result
  = (result
     ++ map JS.trim
          (match JS.splitOn Csv.isComma line with
           | piece :: pieces => (current ++ piece)%string :: pieces
           | [] => []
           end))%list.
Proof.
  revert current result.
  induction line as [|char rest IH]; intros current result Hq.
  - cbn. now rewrite append_empty_r.
  - cbn [occurrences] in Hq. pose proof (occurrences_nonneg Csv.isQuote rest).
    cbn [Csv.scan JS.splitOn]. destruct (Csv.isQuote char); [lia|].
    cbn [negb]. rewrite andb_true_r. destruct (Csv.isComma char).
    + rewrite IH by lia. rewrite <- app_assoc. cbn [app map].
      rewrite append_empty_r. do 2 f_equal.
      pose proof (splitOn_nonempty Csv.isComma rest).
      destruct (JS.splitOn Csv.isComma rest); [congruence | reflexivity].
    + rewrite IH by lia. f_equal.
      pose proof (splitOn_nonempty Csv.isComma rest).
      destruct (JS.splitOn Csv.isComma rest) as [|p ps]; [congruence|].
      cbn [JS.consHead map]. do 2 f_equal.
      now rewrite append_assoc.
Qed.

Lemma scan_quoted (text rest current : string) (result : list string) :
  occurrences Csv.isQuote text = 0 ->
  Csv.scan (text ++ String Csv.quote rest) true current result
  = Csv.scan rest false (current ++ text) result.
Proof.
  revert current. induction text as [|char text IH]; intros current Hq.
  - cbn. now rewrite append_empty_r.
  - cbn [occurrences] in Hq. pose proof (occurrences_nonneg Csv.isQuote text).
    cbn [append Csv.scan]. destruct (Csv.isQuote char); [lia|].
    cbn [negb]. rewrite andb_false_r, IH by lia.
    now rewrite append_assoc.
Qed.

(** X30: on a line without double quotes parseCSVLine is the split on
    commas with every piece trimmed; and a text between two double quotes
    is one field, trimmed, whatever commas it holds. *)
Theorem parseCSVLine_splits_outside_quotes (text : string) :
  occurrences Csv.isQuote text = 0 ->
  Csv.parseCSVLine text = map JS.trim (JS.splitOn Csv.isComma text)
  /\ Csv.parseCSVLine (String Csv.quote (text ++ String Csv.quote "")) = [JS.trim text].
Proof.
  intros Hq. split.
  - rewrite parseCSVLine_scan, scan_unquoted by exact Hq.
    cbn [app append].
    pose proof (splitOn_nonempty Csv.isComma text).
    now destruct (JS.splitOn Csv.isComma text); [congruence|].
  - rewrite parseCSVLine_scan.
    cbn [Csv.scan]. change (Csv.isQuote Csv.quote) with true. cbn [negb].
    now rewrite scan_quoted by exact Hq.
Qed.

Lemma parseCSVLine_splits_outside_quotes_witness :
  Csv.parseCSVLine "Beef Stew, 2 hrs ,Bo"
  = map JS.trim (JS.splitOn Csv.isComma "Beef Stew, 2 hrs ,Bo")
  /\ Csv.parseCSVLine (String Csv.quote ("Beef Stew, 2 hrs ,Bo" ++ String Csv.quote ""))
     = [JS.trim "Beef Stew, 2 hrs ,Bo"].
Proof.
  apply (parseCSVLine_splits_outside_quotes "Beef Stew, 2 hrs ,Bo"). reflexivity.
Defined.
